(** * linkedin_api.utils.helpers: activity extraction, identifier decoding
      and feed assembly

    A shallow embedding of [src/linkedin_api/utils/helpers.py] and
    [src/linkedin_api/model.py].

    Conventions of the embedding.
    - Raw records are decoded JSON: [pyval] has one constructor per JSON
      shape, objects are finite maps from string keys ([gmap string pyval]).
    - A Python expression that may raise evaluates to a [res]: [Ok v] or
      [Raise e], [e] the exception class.  A [try: ... except: ...] block is a
      [match] on that result.
    - Python [str] is [string]; its characters are read as code points below
      256, on which the regular-expression class [\d] is exactly ['0'..'9'].
    - Python [int] is [Z] (unbounded; the interpreter's optional limit on the
      length of decimal literals handed to [int()] is taken to be off).
    - A [datetime] in UTC is the pair of whole seconds since the Unix epoch
      and the microsecond field. *)

From Stdlib Require Import ZArith String Ascii List Lia Bool.
From Stdlib Require Import Floats.SpecFloat.
From stdpp Require Import base option list strings gmap.

Set Warnings "-register-all".
Local Open Scope string_scope.
Local Open Scope list_scope.
Local Open Scope Z_scope.

(** ** Values, exceptions, results *)

Inductive pyval : Type :=
  | PNone
  | PBool (b : bool)
  | PInt (z : Z)
  | PFloat (f : spec_float)
  | PStr (s : string)
  | PList (l : list pyval)
  | PDict (m : gmap string pyval).

Inductive exn : Type :=
  | KeyError
  | IndexError
  | TypeError
  | AttributeError
  | ValueError
  | OverflowError
  | UnboundLocalError
  | ValidationError.

Inductive res (A : Type) : Type :=
  | Ok (a : A)
  | Raise (e : exn).
Arguments Ok {A} a.
Arguments Raise {A} e.

#[global] Instance res_ret : MRet res := fun A a => Ok a.
#[global] Instance res_bind : MBind res := fun A B f m =>
  match m with
  | Ok a => f a
  | Raise e => Raise e
  end.

(** [try: x = e  except: x = dflt] *)
Definition try_except {A} (r : res A) (dflt : A) : A :=
  match r with Ok a => a | Raise _ => dflt end.

Record datetime : Type := mk_datetime {
  dt_seconds : Z;
  dt_microsecond : Z
}.

(** ** String primitives *)

Module Str.

(** [needle in hay] on two strings. *)
Fixpoint contains (needle hay : string) : bool :=
  if String.prefix needle hay then true
  else match hay with
       | EmptyString => false
       | String _ hay' => contains needle hay'
       end.

Definition is_digit (c : ascii) : bool :=
  let n := N_of_ascii c in ((48 <=? n) && (n <=? 57))%N.

Definition digit_val (c : ascii) : Z := Z.of_N (N_of_ascii c) - 48.

Fixpoint all_digits (s : string) : bool :=
  match s with
  | EmptyString => true
  | String c s' => is_digit c && all_digits s'
  end.

(** The longest run of digits at the head of [s]: what a greedy [\d*]
    consumes. *)
Fixpoint span_digits (s : string) : string :=
  match s with
  | EmptyString => EmptyString
  | String c s' => if is_digit c then String c (span_digits s') else EmptyString
  end.

Fixpoint drop (n : nat) (s : string) : string :=
  match n, s with
  | O, _ => s
  | S n', String _ s' => drop n' s'
  | S _, EmptyString => EmptyString
  end.

(** The slice [s[:n]]. *)
Fixpoint take (n : nat) (s : string) : string :=
  match n, s with
  | S n', String c s' => String c (take n' s')
  | _, _ => EmptyString
  end.

(** [s.split(sep)] for a one-character separator: the pieces between the
    separators, at least one piece. *)
Fixpoint split (sep : ascii) (s : string) : list string :=
  match s with
  | EmptyString => [EmptyString]
  | String c s' =>
      if Ascii.eqb c sep then EmptyString :: split sep s'
      else match split sep s' with
           | piece :: pieces => String c piece :: pieces
           | [] => [String c EmptyString]
           end
  end.

End Str.

(** The pattern of [re.search("(urn:li:activity:\d+)", s)]. *)
Definition urn_activity_prefix : string := "urn:li:activity:".

(** A match of the pattern that starts at the first character of [s]: the
    prefix, then the greedy, non-empty run of digits. *)
Definition match_urn_activity_at (s : string) : option string :=
  if String.prefix urn_activity_prefix s then
    match Str.span_digits (Str.drop (String.length urn_activity_prefix) s) with
    | EmptyString => None
    | ds => Some (urn_activity_prefix +:+ ds)
    end
  else None.

(** [re.search("(urn:li:activity:\d+)", s)] followed by [.group()]: the
    match at the leftmost position that has one.  [None] is Python's [None]
    (no match). *)
Fixpoint re_search_urn_activity (s : string) : option string :=
  match match_urn_activity_at s with
  | Some m => Some m
  | None =>
      match s with
      | EmptyString => None
      | String _ s' => re_search_urn_activity s'
      end
  end.

(** [l[-1]] *)
Definition last_item {A} (l : list A) : res A :=
  match last l with
  | Some x => Ok x
  | None => Raise IndexError
  end.

(** [int(s)] on a decimal literal; the strings reaching it here are runs of
    digits, anything else is reported as [ValueError]. *)
Fixpoint int_digits (base : Z) (acc : Z) (s : string) : res Z :=
  match s with
  | EmptyString => Ok acc
  | String c s' =>
      if Str.is_digit c && (Str.digit_val c <? base)
      then int_digits base (base * acc + Str.digit_val c) s'
      else Raise ValueError
  end.

Definition int_of_str (s : string) : res Z :=
  match s with
  | EmptyString => Raise ValueError
  | _ => int_digits 10 0 s
  end.

(** [int(s, 2)]: an optional [0b] prefix, then at least one binary digit. *)
Definition int_of_str_base2 (s : string) : res Z :=
  let body :=
    match s with
    | String "0" (String "b" s') => s'
    | String "0" (String "B" s') => s'
    | _ => s
    end in
  match body with
  | EmptyString => Raise ValueError
  | _ => int_digits 2 0 body
  end.

(** The binary digits of a positive number, most significant first. *)
Fixpoint bits_of_pos (p : positive) : string :=
  match p with
  | xH => "1"
  | xO p' => bits_of_pos p' +:+ "0"
  | xI p' => bits_of_pos p' +:+ "1"
  end.

(** [bin(n)] *)
Definition bin (n : Z) : string :=
  match n with
  | Z0 => "0b0"
  | Zpos p => "0b" +:+ bits_of_pos p
  | Zneg p => "-0b" +:+ bits_of_pos p
  end.

(** [datetime.datetime.fromtimestamp(ms / 1000, tz=utc)] for an integer
    [0 <= ms < 2^41]: the quotient is a double within half a unit in the last
    place (below a quarter of a microsecond at this magnitude) of the exact
    value, and [fromtimestamp] rounds to the microsecond, so the result is the
    instant [ms] milliseconds after the epoch. *)
Definition utc_from_millis (ms : Z) : datetime :=
  {| dt_seconds := ms / 1000; dt_microsecond := (ms mod 1000) * 1000 |}.

(** ** The identifier decoder *)

Definition get_timestamp_from_entity_urn (entity_urn : string) : res datetime :=
  match re_search_urn_activity entity_urn with
  | None => Raise AttributeError          (* None.group() *)
  | Some urn_activity =>
      post_id ← last_item (Str.split ":" urn_activity);
      n ← int_of_str post_id;
      let post_id_binary := bin n in
      let first_41 := Str.take 43 post_id_binary in
      ms ← int_of_str_base2 first_41;
      Ok (utc_from_millis ms)
  end.

(** ** Operations on decoded JSON *)

(** [v[k]] for a string key. *)
Definition getitem (v : pyval) (k : string) : res pyval :=
  match v with
  | PDict m =>
      match m !! k with
      | Some x => Ok x
      | None => Raise KeyError
      end
  | _ => Raise TypeError
  end.

(** [v[0]]; a JSON object has no integer key. *)
Definition getitem0 (v : pyval) : res pyval :=
  match v with
  | PList (x :: _) => Ok x
  | PList [] => Raise IndexError
  | PStr (String c _) => Ok (PStr (String c EmptyString))
  | PStr EmptyString => Raise IndexError
  | PDict _ => Raise KeyError
  | _ => Raise TypeError
  end.

(** [d.get(k)] on a dict: [None] when the key is absent. *)
Definition dict_get (d : gmap string pyval) (k : string) : pyval :=
  default PNone (d !! k).

(** [v == s] for a string [s]. *)
Definition eq_str (v : pyval) (s : string) : bool :=
  match v with
  | PStr s' => String.eqb s' s
  | _ => false
  end.

(** [needle in hay]: substring test on a string, membership on a list, key
    membership on a dict, [TypeError] on anything else. *)
Definition py_in (needle : string) (hay : pyval) : res bool :=
  match hay with
  | PStr h => Ok (Str.contains needle h)
  | PList l => Ok (existsb (fun x => eq_str x needle) l)
  | PDict m => Ok (bool_decide (is_Some (m !! needle)))
  | _ => Raise TypeError
  end.

Fixpoint chars (s : string) : list pyval :=
  match s with
  | EmptyString => []
  | String c s' => PStr (String c EmptyString) :: chars s'
  end.

(** The items a [for] loop over [v] visits. *)
Definition py_iter (v : pyval) : res (list pyval) :=
  match v with
  | PList l => Ok l
  | PStr s => Ok (chars s)
  | PDict m => Ok (PStr <$> (map_to_list m).*1)
  | _ => Raise TypeError
  end.

(** Whether [datetime.datetime.fromtimestamp(v, tz=utc)] returns: [v] must be
    a number whose instant lies in the years 1 to 9999.  The datetime itself
    is only ever passed on as [comment_timestamp], which is not a field of
    the model, so its value is not kept. *)
Definition min_timestamp : Z := -62135596800.
Definition max_timestamp : Z := 253402300799.

Definition float_in_range (f : spec_float) : res unit :=
  match f with
  | S754_zero _ => Ok ()
  | S754_nan => Raise ValueError
  | S754_infinity _ => Raise OverflowError
  | S754_finite sg m e =>
      let sm := if sg then Z.neg m else Z.pos m in
      let inside :=
        if 0 <=? e
        then (min_timestamp <=? sm * 2 ^ e) && (sm * 2 ^ e <=? max_timestamp)
        else (min_timestamp * 2 ^ (- e) <=? sm)
             && (sm <? (max_timestamp + 1) * 2 ^ (- e)) in
      if inside then Ok () else Raise ValueError
  end.

Definition fromtimestamp_utc (v : pyval) : res unit :=
  match v with
  | PInt z =>
      if (min_timestamp <=? z) && (z <=? max_timestamp) then Ok ()
      else Raise ValueError
  | PBool _ => Ok ()
  | PFloat f => float_in_range f
  | _ => Raise TypeError
  end.

(** ** The data model ([model.py]) *)

Record LinkedinActivity : Type := mk_LinkedinActivity {
  actor_urn : string;
  actor_type : string;
  actor_name : string;
  dash_entity_urn : string;
  entity_urn : string;
  url : string;
  caption : string;
  post_urn : string;
  is_shared : bool;
  shared_caption : string;
  is_reposted : bool;
  is_liked : bool;
  is_commented : bool;
  comment : string;
  timestamp : datetime
}.

(** Validation of a [str] field by the model (pydantic's [BaseModel]): a
    string is taken as it is, another value is refused.  The keyword
    [comment_timestamp] names no field of the model and is dropped. *)
Definition validate_str (v : pyval) : res string :=
  match v with
  | PStr s => Ok s
  | _ => Raise ValidationError
  end.

(** ** The activity extractor *)

(** The two locals of [elements_to_linkedin_activity] that are not assigned
    on every path of the loop body: they keep the value of an earlier
    iteration, and are unbound ([None]) until first assigned. *)
Record locals : Type := mk_locals {
  loc_actor_type : option string;
  loc_url : option pyval
}.

Definition no_locals : locals :=
  {| loc_actor_type := None; loc_url := None |}.

(** Lines 255-263: the actor identifier and the actor type. *)
Definition extract_actor (st : locals) (d : gmap string pyval)
  : pyval * option string :=
  let attempt : res (pyval * option string) :=
    actor ← getitem (PDict d) "actor";
    urn ← getitem actor "urn";
    is_company ← py_in "company" urn;
    if (is_company : bool) then Ok (urn, Some "company")
    else
      is_member ← py_in "member" urn;
      if (is_member : bool) then Ok (urn, Some "member")
      else Ok (urn, loc_actor_type st) in
  try_except attempt (PStr "", loc_actor_type st).

(** Lines 265-278. *)
Definition extract_actor_name (d : gmap string pyval) : pyval :=
  try_except (actor ← getitem (PDict d) "actor";
              name ← getitem actor "name";
              getitem name "text") (PStr "").

Definition extract_dash_entity_urn (d : gmap string pyval) : pyval :=
  try_except (getitem (PDict d) "dashEntityUrn") (PStr "").

Definition extract_entity_urn (d : gmap string pyval) : pyval :=
  try_except (getitem (PDict d) "entityUrn") (PStr "").

(** Lines 282-285: the loop over the actions.  [Some u]: [url] was assigned
    and the loop left by [break]; [None]: the loop ran to its end. *)
Fixpoint scan_actions (actions : list pyval) : res (option pyval) :=
  match actions with
  | [] => Ok None
  | a :: rest =>
      ty ← getitem a "actionType";
      if eq_str ty "SHARE_VIA" then
        u ← getitem a "url";
        Ok (Some u)
      else scan_actions rest
  end.

(** Lines 280-287: the local [url] after the block. *)
Definition extract_url (st : locals) (d : gmap string pyval) : option pyval :=
  let attempt : res (option pyval) :=
    meta ← getitem (PDict d) "updateMetadata";
    ua ← getitem meta "updateActions";
    actions ← getitem ua "actions";
    items ← py_iter actions;
    scan_actions items in
  match attempt with
  | Ok (Some u) => Some u
  | Ok None => loc_url st
  | Raise _ => Some (PStr "")
  end.

(** Lines 289-293: [d["resharedUpdate"]["commentary"]["text"]["text"]]. *)
Definition reshared_commentary (d : gmap string pyval) : res pyval :=
  r ← getitem (PDict d) "resharedUpdate";
  c ← getitem r "commentary";
  t ← getitem c "text";
  getitem t "text".

(** Line 297: [d["header"]["text"]["text"]]. *)
Definition header_text (d : gmap string pyval) : res pyval :=
  h ← getitem (PDict d) "header";
  t ← getitem h "text";
  getitem t "text".

(** The four flags, in the order [is_shared], [is_reposted], [is_liked],
    [is_commented]. *)
Record flags : Type := mk_flags {
  f_shared : bool;
  f_reposted : bool;
  f_liked : bool;
  f_commented : bool
}.

(** Lines 296-306: the header branch, entered when [is_shared] is false. *)
Definition classify_header (d : gmap string pyval) : flags :=
  let attempt : res flags :=
    h ← header_text d;
    reposted ← py_in "reposted this" h;
    if (reposted : bool) then Ok (mk_flags false true false false)
    else
      commented ← py_in "commented on this" h;
      if (commented : bool) then Ok (mk_flags false false false true)
      else Ok (mk_flags false false true false) in
  try_except attempt (mk_flags false false false false).

(** Lines 253 and 289-306. *)
Definition classify (d : gmap string pyval) : pyval * flags :=
  match reshared_commentary d with
  | Ok c => (c, mk_flags true false false false)
  | Raise _ => (PStr "", classify_header d)
  end.

(** Lines 308-318: the highlighted comment. *)
Definition extract_comment (is_commented : bool) (d : gmap string pyval) : pyval :=
  if is_commented then
    try_except (hcs ← getitem (PDict d) "highlightedComments";
                hc ← getitem0 hcs;
                cv2 ← getitem hc "commentV2";
                text ← getitem cv2 "text";
                created ← getitem hc "createdTime";
                _ ← fromtimestamp_utc created;
                Ok text) (PStr "")
  else PStr "".

(** Lines 320-328. *)
Definition extract_caption (d : gmap string pyval) : pyval :=
  try_except (c ← getitem (PDict d) "commentary";
              t ← getitem c "text";
              getitem t "text") (PStr "").

Definition extract_post_urn (d : gmap string pyval) : pyval :=
  try_except (meta ← getitem (PDict d) "updateMetadata";
              getitem meta "urn") (PStr "").

(** Reading a local that may be unbound. *)
Definition read_local {A} (x : option A) : res A :=
  match x with
  | Some v => Ok v
  | None => Raise UnboundLocalError
  end.

(** [get_timestamp_from_entity_urn(entity_urn)] at line 346: [re.search]
    refuses a value that is not a string. *)
Definition timestamp_of (entity_urn : pyval) : res datetime :=
  match entity_urn with
  | PStr s => get_timestamp_from_entity_urn s
  | _ => Raise TypeError
  end.

(** One iteration of the loop body (lines 253-349): the activity appended
    and the locals carried to the next iteration.  The keyword arguments of
    [model.LinkedinActivity(...)] are evaluated in the order written, then
    the model validates its fields. *)
Definition record_to_activity (st : locals) (d : gmap string pyval)
  : res (LinkedinActivity * locals) :=
  let '(v_actor_urn, l_actor_type) := extract_actor st d in
  let v_actor_name := extract_actor_name d in
  let v_dash_entity_urn := extract_dash_entity_urn d in
  let v_entity_urn := extract_entity_urn d in
  let l_url := extract_url st d in
  let '(v_shared_caption, fl) := classify d in
  let v_comment := extract_comment (f_commented fl) d in
  let v_caption := extract_caption d in
  let v_post_urn := extract_post_urn d in
  a_type ← read_local l_actor_type;
  v_url ← read_local l_url;
  ts ← timestamp_of v_entity_urn;
  a_urn ← validate_str v_actor_urn;
  a_name ← validate_str v_actor_name;
  dash ← validate_str v_dash_entity_urn;
  entity ← validate_str v_entity_urn;
  u ← validate_str v_url;
  cap ← validate_str v_caption;
  purn ← validate_str v_post_urn;
  scap ← validate_str v_shared_caption;
  com ← validate_str v_comment;
  Ok ({| actor_urn := a_urn; actor_type := a_type; actor_name := a_name;
         dash_entity_urn := dash; entity_urn := entity; url := u;
         caption := cap; post_urn := purn;
         is_shared := f_shared fl; shared_caption := scap;
         is_reposted := f_reposted fl; is_liked := f_liked fl;
         is_commented := f_commented fl; comment := com; timestamp := ts |},
      {| loc_actor_type := l_actor_type; loc_url := l_url |}).

(** The loop of lines 252-349, from the locals [st] and the list built so
    far. *)
Fixpoint activities_loop (st : locals) (activities_list : list LinkedinActivity)
    (data : list (gmap string pyval)) : res (list LinkedinActivity) :=
  match data with
  | [] => Ok activities_list
  | d :: rest =>
      '(activity_data, st') ← record_to_activity st d;
      activities_loop st' (activities_list ++ [activity_data]) rest
  end.

Definition elements_to_linkedin_activity (data : list (gmap string pyval))
  : res (list LinkedinActivity) :=
  activities_loop no_locals [] data.

(** ** The feed assembler *)

(** [[d for d in l_posts if needle not in d.get(key)]] *)
Fixpoint filter_not_in (needle key : string) (l_posts : list (gmap string pyval))
  : res (list (gmap string pyval)) :=
  match l_posts with
  | [] => Ok []
  | d :: rest =>
      found ← py_in needle (dict_get d key);
      kept ← filter_not_in needle key rest;
      Ok (if (found : bool) then kept else d :: kept)
  end.

(** Lines 233-234: the first post whose ["url"] contains [urn]. *)
Fixpoint find_post (urn : string) (l_posts : list (gmap string pyval))
  : res (option (gmap string pyval)) :=
  match l_posts with
  | [] => Ok None
  | post :: rest =>
      u ← getitem (PDict post) "url";
      found ← py_in urn u;
      if (found : bool) then Ok (Some post) else find_post urn rest
  end.

(** The body of the loop over [l_urns] (lines 233-237) on the pair of the
    output list and the working list [l_posts]. *)
Definition place_urn (urn : string)
    (s : list (gmap string pyval) * list (gmap string pyval))
  : res (list (gmap string pyval) * list (gmap string pyval)) :=
  let '(sorted, l_posts) := s in
  hit ← find_post urn l_posts;
  match hit with
  | None => Ok (sorted, l_posts)
  | Some post =>
      remaining ← filter_not_in urn "url" l_posts;
      Ok (sorted ++ [post], remaining)
  end.

Fixpoint place_urns (l_urns : list string)
    (s : list (gmap string pyval) * list (gmap string pyval))
  : res (list (gmap string pyval) * list (gmap string pyval)) :=
  match l_urns with
  | [] => Ok s
  | urn :: rest => s' ← place_urn urn s; place_urns rest s'
  end.

(** The result is the returned list together with the final content of
    [l_posts], which the function updates in place. *)
Definition get_list_posts_sorted_without_promoted (l_urns : list string)
    (l_posts : list (gmap string pyval))
  : res (list (gmap string pyval) * list (gmap string pyval)) :=
  l_posts' ← filter_not_in "Promoted" "old" l_posts;
  place_urns l_urns ([], l_posts').

(** ** URN helpers (lines 6-22) *)

(** [l[i]] for an index [i >= 0]. *)
Definition nth_item {A} (l : list A) (i : nat) : res A :=
  match l !! i with
  | Some x => Ok x
  | None => Raise IndexError
  end.

Definition get_id_from_urn (urn : string) : res string :=
  nth_item (Str.split ":" urn) 3.

Definition get_urn_from_raw_update (raw_string : string) : res string :=
  inner ← nth_item (Str.split "(" raw_string) 1;
  nth_item (Str.split "," inner) 0.

(** The same call on a decoded JSON value: only a string has [split]. *)
Definition get_urn_from_raw_update_of (v : pyval) : res string :=
  match v with
  | PStr raw_string => get_urn_from_raw_update raw_string
  | _ => Raise AttributeError
  end.

(** ** Field extractors of the feed assembler (lines 25-129) *)

(** The pair of clauses [except KeyError: return ""] and
    [except TypeError: return "None"]; any other exception goes on. *)
Definition except_key_type (r : res pyval) : res pyval :=
  match r with
  | Ok v => Ok v
  | Raise KeyError => Ok (PStr "")
  | Raise TypeError => Ok (PStr "None")
  | Raise e => Raise e
  end.

Definition get_update_author_name (d_included : pyval) : res pyval :=
  except_key_type (actor ← getitem d_included "actor";
                   name ← getitem actor "name";
                   getitem name "text").

Definition get_update_old (d_included : pyval) : res pyval :=
  except_key_type (actor ← getitem d_included "actor";
                   sub ← getitem actor "subDescription";
                   getitem sub "text").

Definition get_update_content (d_included : pyval) (base_url : string)
  : res pyval :=
  match (commentary ← getitem d_included "commentary";
         text ← getitem commentary "text";
         getitem text "text") with
  | Ok v => Ok v
  | Raise KeyError => Ok (PStr "")
  | Raise TypeError =>
      (* Let's see if its a reshared post... *)
      match (reshared ← getitem d_included "*resharedUpdate";
             urn ← get_urn_from_raw_update_of reshared;
             Ok (PStr (base_url +:+ "/feed/update/" +:+ urn))) with
      | Ok v => Ok v
      | Raise KeyError => Ok (PStr "IMAGE")
      | Raise TypeError => Ok (PStr "None")
      | Raise e => Raise e
      end
  | Raise e => Raise e
  end.

(** The [else] clause of [get_update_author_profile] (lines 104-108), which
    no [except] protects; falling off its end returns [None]. *)
Definition author_profile_of_urn (urn : pyval) (base_url : string) : res pyval :=
  match urn with
  | PStr u =>
      urn_id ← last_item (Str.split ":" u);
      if Str.contains "company" u then
        Ok (PStr (base_url +:+ "/company/" +:+ urn_id))
      else if Str.contains "member" u then
        Ok (PStr (base_url +:+ "/in/" +:+ urn_id))
      else Ok PNone
  | _ => Raise AttributeError
  end.

Definition get_update_author_profile (d_included : pyval) (base_url : string)
  : res pyval :=
  match (actor ← getitem d_included "actor"; getitem actor "urn") with
  | Ok urn => author_profile_of_urn urn base_url
  | Raise KeyError => Ok (PStr "")
  | Raise TypeError => Ok (PStr "None")
  | Raise e => Raise e
  end.

(** [str_of] is Python's [str()], by which the f-string of line 129 renders
    [urn]; on a string it gives the string. *)
Definition get_update_url (str_of : pyval → string) (d_included : pyval)
    (base_url : string) : res pyval :=
  match (meta ← getitem d_included "updateMetadata"; getitem meta "urn") with
  | Ok urn => Ok (PStr (base_url +:+ "/feed/update/" +:+ str_of urn))
  | Raise KeyError => Ok (PStr "")
  | Raise TypeError => Ok (PStr "None")
  | Raise e => Raise e
  end.

(** ** The post-field accumulator (lines 132-215) *)

(** The truth value of a decoded JSON value in an [if]. *)
Definition truthy (v : pyval) : bool :=
  match v with
  | PNone => false
  | PBool b => b
  | PInt z => negb (z =? 0)
  | PFloat (S754_zero _) => false
  | PFloat _ => true
  | PStr EmptyString => false
  | PStr _ => true
  | PList [] => false
  | PList _ => true
  | PDict m => match map_to_list m with [] => false | _ => true end
  end.

(** The list is updated in place and returned; [d_included] is not used. *)
Definition append_update_post_field_to_posts_list (d_included : pyval)
    (l_posts : list (gmap string pyval)) (post_key : string) (post_value : pyval)
  : list (gmap string pyval) :=
  match last l_posts with
  | None => l_posts ++ [{[post_key := post_value]}]
  | Some current =>
      match current !! post_key with
      | None => <[(length l_posts - 1)%nat := <[post_key := post_value]> current]> l_posts
      | Some _ => l_posts ++ [{[post_key := post_value]}]
      end
  end.

(** [if value: l_posts = append_update_post_field_to_posts_list(...)] *)
Definition add_field (i : pyval) (l_posts : list (gmap string pyval))
    (post_key : string) (post_value : pyval) : list (gmap string pyval) :=
  if truthy post_value
  then append_update_post_field_to_posts_list i l_posts post_key post_value
  else l_posts.

(** The body of the loop of [parse_list_raw_posts] (lines 189-213). *)
Definition parse_raw_post (str_of : pyval → string) (linkedin_base_url : string)
    (l_posts : list (gmap string pyval)) (i : pyval)
  : res (list (gmap string pyval)) :=
  author_name ← get_update_author_name i;
  let l_posts := add_field i l_posts "author_name" author_name in
  author_profile ← get_update_author_profile i linkedin_base_url;
  let l_posts := add_field i l_posts "author_profile" author_profile in
  old ← get_update_old i;
  let l_posts := add_field i l_posts "old" old in
  content ← get_update_content i linkedin_base_url;
  let l_posts := add_field i l_posts "content" content in
  url ← get_update_url str_of i linkedin_base_url;
  let l_posts := add_field i l_posts "url" url in
  Ok l_posts.

Fixpoint parse_raw_posts_from (str_of : pyval → string)
    (linkedin_base_url : string) (l_posts : list (gmap string pyval))
    (l_raw_posts : list pyval) : res (list (gmap string pyval)) :=
  match l_raw_posts with
  | [] => Ok l_posts
  | i :: rest =>
      l_posts' ← parse_raw_post str_of linkedin_base_url l_posts i;
      parse_raw_posts_from str_of linkedin_base_url l_posts' rest
  end.

Definition parse_list_raw_posts (str_of : pyval → string)
    (l_raw_posts : list pyval) (linkedin_base_url : string)
  : res (list (gmap string pyval)) :=
  parse_raw_posts_from str_of linkedin_base_url [] l_raw_posts.

(** The loop of [parse_list_raw_urns] (lines 169-172) from the list built so
    far. *)
Fixpoint parse_raw_urns_from (l_urns : list string) (l_raw_urns : list pyval)
  : res (list string) :=
  match l_raw_urns with
  | [] => Ok l_urns
  | i :: rest =>
      urn ← get_urn_from_raw_update_of i;
      parse_raw_urns_from (l_urns ++ [urn]) rest
  end.

Definition parse_list_raw_urns (l_raw_urns : list pyval) : res (list string) :=
  parse_raw_urns_from [] l_raw_urns.

(** ** Notions used to state the properties *)

(** The number written by a run of decimal digits, by position. *)
Fixpoint decimal (ds : string) : Z :=
  match ds with
  | EmptyString => 0
  | String c ds' => Str.digit_val c * 10 ^ Z.of_nat (String.length ds') + decimal ds'
  end.

(** The number read back from the first 41 binary digits of [n]: [n] itself
    when it has at most 41 of them. *)
Definition leading_41_bits (n : Z) : Z :=
  if n <? 2 ^ 40 then n else Z.shiftr n (Z.log2 n - 40).

(** [s] has an occurrence of [urn:li:activity:] followed by a digit. *)
Definition embeds_activity_urn (s : string) : Prop :=
  ∃ pre d rest, Str.is_digit d = true ∧
    s = pre +:+ urn_activity_prefix +:+ String d rest.

(** [ds] is the run of digits of the leftmost occurrence in [s]. *)
Definition first_activity_id (s ds : string) : Prop :=
  ∃ pre rest,
    s = pre +:+ urn_activity_prefix +:+ ds +:+ rest ∧
    ds ≠ "" ∧ Str.all_digits ds = true ∧ Str.span_digits rest = "" ∧
    ¬ embeds_activity_urn (pre +:+ urn_activity_prefix).

(** [a] is what some iteration of the loop builds from the record [d]. *)
Definition activity_of (d : gmap string pyval) (a : LinkedinActivity) : Prop :=
  ∃ st st', record_to_activity st d = Ok (a, st').

Definition flags_of (a : LinkedinActivity) : flags :=
  mk_flags (is_shared a) (is_reposted a) (is_liked a) (is_commented a).

(** How many of the four flags are set. *)
Definition flag_count (f : flags) : nat :=
  (Nat.b2n (f_shared f) + Nat.b2n (f_reposted f)
   + Nat.b2n (f_liked f) + Nat.b2n (f_commented f))%nat.

Definition only_shared : flags := mk_flags true false false false.
Definition only_reposted : flags := mk_flags false true false false.
Definition only_liked : flags := mk_flags false false true false.
Definition only_commented : flags := mk_flags false false false true.
Definition no_flag : flags := mk_flags false false false false.

(** The header branch as the phrases of the header text decide it. *)
Definition header_flags (h : string) : flags :=
  if Str.contains "reposted this" h then only_reposted
  else if Str.contains "commented on this" h then only_commented
  else only_liked.

(** The test of line 234 on one post: [urn in post["url"]]. *)
Definition url_contains (urn : string) (post : gmap string pyval) : res bool :=
  u ← getitem (PDict post) "url";
  py_in urn u.

(** The test of line 231 on one post: ["Promoted" in d.get("old")]. *)
Definition promoted (d : gmap string pyval) : res bool :=
  py_in "Promoted" (dict_get d "old").

(** The fields of [a] that come from a top-level key absent from [d] hold
    their default. *)
Definition defaults_hold (d : gmap string pyval) (a : LinkedinActivity) : Prop :=
  (d !! "actor" = None → actor_urn a = "" ∧ actor_name a = "") ∧
  (d !! "dashEntityUrn" = None → dash_entity_urn a = "") ∧
  (d !! "updateMetadata" = None → url a = "" ∧ post_urn a = "") ∧
  (d !! "resharedUpdate" = None → is_shared a = false ∧ shared_caption a = "") ∧
  (d !! "header" = None →
     is_reposted a = false ∧ is_liked a = false ∧ is_commented a = false) ∧
  (d !! "highlightedComments" = None → comment a = "") ∧
  (d !! "commentary" = None → caption a = "").

(** ** Sample inputs *)

Definition obj (l : list (string * pyval)) : pyval := PDict (list_to_map l).

Definition text_node (s : string) : pyval :=
  obj [("text", obj [("text", PStr s)])].

Definition sample_urn : string :=
  "urn:li:fs_updateV2:(urn:li:activity:7123456789012345678,PROFILE)".

Definition sample_actor : pyval :=
  obj [("urn", PStr "urn:li:member:1"); ("name", obj [("text", PStr "Ann")])].

(** A reshare whose header also says "reposted this". *)
Definition sample_reshare : gmap string pyval :=
  list_to_map [("actor", sample_actor); ("entityUrn", PStr sample_urn);
               ("header", text_node "Ann reposted this");
               ("resharedUpdate", obj [("commentary", text_node "orig")])].

Definition sample_reshare_activity : LinkedinActivity :=
  {| actor_urn := "urn:li:member:1"; actor_type := "member"; actor_name := "Ann";
     dash_entity_urn := ""; entity_urn := sample_urn; url := ""; caption := "";
     post_urn := ""; is_shared := true; shared_caption := "orig";
     is_reposted := false; is_liked := false; is_commented := false;
     comment := "";
     timestamp := {| dt_seconds := 1698364445; dt_microsecond := 927000 |} |}.

(** A like: the header has neither of the two phrases. *)
Definition sample_like : gmap string pyval :=
  list_to_map [("actor", sample_actor); ("entityUrn", PStr sample_urn);
               ("header", text_node "Ann liked this")].

Definition sample_like_activity : LinkedinActivity :=
  {| actor_urn := "urn:li:member:1"; actor_type := "member"; actor_name := "Ann";
     dash_entity_urn := ""; entity_urn := sample_urn; url := ""; caption := "";
     post_urn := ""; is_shared := false; shared_caption := "";
     is_reposted := false; is_liked := true; is_commented := false;
     comment := "";
     timestamp := {| dt_seconds := 1698364445; dt_microsecond := 927000 |} |}.

(** A record with nothing but its actor and its identifier. *)
Definition sample_bare : gmap string pyval :=
  list_to_map [("actor", sample_actor); ("entityUrn", PStr "urn:li:activity:42")].

Definition sample_bare_activity : LinkedinActivity :=
  {| actor_urn := "urn:li:member:1"; actor_type := "member"; actor_name := "Ann";
     dash_entity_urn := ""; entity_urn := "urn:li:activity:42"; url := "";
     caption := ""; post_urn := ""; is_shared := false; shared_caption := "";
     is_reposted := false; is_liked := false; is_commented := false;
     comment := "";
     timestamp := {| dt_seconds := 0; dt_microsecond := 42000 |} |}.

(** The same record without its identifier. *)
Definition sample_no_entity_urn : gmap string pyval :=
  list_to_map [("actor", sample_actor); ("header", text_node "Ann liked this")].

Definition sample_post (old u : string) : gmap string pyval :=
  list_to_map [("old", PStr old); ("url", PStr u)].

(** A partial mapping that never received a ["url"]. *)
Definition sample_post_no_url : gmap string pyval :=
  list_to_map [("old", PStr "1d")].

(** A comment: the header says "commented on this". *)
Definition sample_comment : gmap string pyval :=
  list_to_map [("actor", sample_actor); ("entityUrn", PStr sample_urn);
               ("header", text_node "Ann commented on this");
               ("highlightedComments",
                PList [obj [("commentV2", obj [("text", PStr "nice")]);
                            ("createdTime", PInt 1700000000)]])].

Definition sample_comment_activity : LinkedinActivity :=
  {| actor_urn := "urn:li:member:1"; actor_type := "member"; actor_name := "Ann";
     dash_entity_urn := ""; entity_urn := sample_urn; url := ""; caption := "";
     post_urn := ""; is_shared := false; shared_caption := "";
     is_reposted := false; is_liked := false; is_commented := true;
     comment := "nice";
     timestamp := {| dt_seconds := 1698364445; dt_microsecond := 927000 |} |}.

(** A first record whose actor has neither "company" nor "member" in its
    identifier. *)
Definition sample_unknown_actor : gmap string pyval :=
  list_to_map [("actor", obj [("urn", PStr "urn:li:school:7")]);
               ("entityUrn", PStr sample_urn)].

(** ** Notions used to state the further properties *)

(** The number of occurrences of the character [c] in [s]. *)
Fixpoint count_char (c : ascii) (s : string) : nat :=
  match s with
  | EmptyString => O
  | String x s' => ((if Ascii.eqb x c then 1 else 0) + count_char c s')%nat
  end.

(** The part of [s] before the first [c], all of [s] when it has none. *)
Fixpoint before_char (c : ascii) (s : string) : string :=
  match s with
  | EmptyString => EmptyString
  | String x s' => if Ascii.eqb x c then EmptyString else String x (before_char c s')
  end.

(** [d["commentary"]["text"]["text"]], the lookup guarded by the first [try]
    of [get_update_content]. *)
Definition commentary_text (d : pyval) : res pyval :=
  commentary ← getitem d "commentary";
  text ← getitem commentary "text";
  getitem text "text".

Definition is_dict (v : pyval) : bool :=
  match v with PDict _ => true | _ => false end.

Definition is_str (v : pyval) : bool :=
  match v with PStr _ => true | _ => false end.

(** A rendering for the examples, whose records hold strings wherever a
    value is rendered. *)
Definition str_of_text (v : pyval) : string :=
  match v with PStr s => s | _ => "" end.

(** A raw record whose commentary is null and that names a reshared
    update. *)
Definition sample_reshared_only : gmap string pyval :=
  list_to_map [("commentary", PNone);
               ("*resharedUpdate",
                PStr "urn:li:fs_updateV2:(urn:li:activity:12,FEED)")].

(** The part of [s] after the last [c], all of [s] when it has none. *)
Fixpoint after_last (c : ascii) (s : string) : string :=
  match s with
  | EmptyString => EmptyString
  | String x s' =>
      if Nat.eqb (count_char c s) 0 then s else after_last c s'
  end.

(** The five field names of a post mapping. *)
Definition post_fields : list string :=
  ["author_name"; "author_profile"; "old"; "content"; "url"].

(** What holds of every mapping [parse_list_raw_posts] builds. *)
Definition post_wf (m : gmap string pyval) : Prop :=
  m ≠ ∅ ∧
  (∀ k v, m !! k = Some v → k ∈ post_fields ∧ truthy v = true) ∧
  (∀ v, m !! "url" = Some v → is_str v = true) ∧
  (∀ v, m !! "author_profile" = Some v → is_str v = true).

(** The five texts of a raw record that has them all. *)
Record full_post : Type := mk_full_post {
  fp_name : string;
  fp_actor_urn : string;
  fp_old : string;
  fp_content : string;
  fp_post_urn : string
}.

(** The raw record [i] carries the five texts of [fp], each at the place the
    extractors read. *)
Definition complete_raw (i : pyval) (fp : full_post) : Prop :=
  ∃ m actor name sub commentary text meta : gmap string pyval,
    i = PDict m ∧
    m !! "actor" = Some (PDict actor) ∧
    actor !! "name" = Some (PDict name) ∧
    name !! "text" = Some (PStr (fp_name fp)) ∧
    actor !! "urn" = Some (PStr (fp_actor_urn fp)) ∧
    actor !! "subDescription" = Some (PDict sub) ∧
    sub !! "text" = Some (PStr (fp_old fp)) ∧
    m !! "commentary" = Some (PDict commentary) ∧
    commentary !! "text" = Some (PDict text) ∧
    text !! "text" = Some (PStr (fp_content fp)) ∧
    m !! "updateMetadata" = Some (PDict meta) ∧
    meta !! "urn" = Some (PStr (fp_post_urn fp)).

(** None of the texts is empty and the actor is a company or a member. *)
Definition full_post_ok (fp : full_post) : Prop :=
  fp_name fp ≠ "" ∧ fp_old fp ≠ "" ∧ fp_content fp ≠ "" ∧
  (Str.contains "company" (fp_actor_urn fp) = true ∨
   Str.contains "member" (fp_actor_urn fp) = true).

Definition profile_link (base_url urn : string) : string :=
  base_url +:+ (if Str.contains "company" urn then "/company/" else "/in/")
  +:+ after_last ":" urn.

(** The post mapping of a raw record that has the five texts. *)
Definition post_of_full (base_url : string) (fp : full_post)
  : gmap string pyval :=
  <["url" := PStr (base_url +:+ "/feed/update/" +:+ fp_post_urn fp)]>
  (<["content" := PStr (fp_content fp)]>
   (<["old" := PStr (fp_old fp)]>
    (<["author_profile" := PStr (profile_link base_url (fp_actor_urn fp))]>
     {["author_name" := PStr (fp_name fp)]}))).

(** The raw record of a post, with nothing but the five texts. *)
Definition raw_of_full (fp : full_post) : pyval :=
  obj [("actor", obj [("name", obj [("text", PStr (fp_name fp))]);
                      ("urn", PStr (fp_actor_urn fp));
                      ("subDescription", obj [("text", PStr (fp_old fp))])]);
       ("commentary", text_node (fp_content fp));
       ("updateMetadata", obj [("urn", PStr (fp_post_urn fp))])].

Definition sample_full_post : full_post :=
  {| fp_name := "Ann"; fp_actor_urn := "urn:li:member:9"; fp_old := "2 mo";
     fp_content := "hello"; fp_post_urn := "urn:li:activity:5" |}.

(** A post mapping with a string under ["old"] and a string under ["url"]. *)
Definition post_has_texts (post : gmap string pyval) : Prop :=
  (∃ old, post !! "old" = Some (PStr old)) ∧
  (∃ u, post !! "url" = Some (PStr u)).

(** The two carried locals once the activity [a] has been built. *)
Definition locals_after (a : LinkedinActivity) : locals :=
  {| loc_actor_type := Some (actor_type a); loc_url := Some (PStr (url a)) |}.




(** A record with an actions list that has a [SHARE_VIA] entry after another
    entry, and a second one later. *)
Definition sample_share : gmap string pyval :=
  list_to_map
    [("actor", sample_actor); ("entityUrn", PStr sample_urn);
     ("updateMetadata",
      obj [("updateActions",
            obj [("actions",
                  PList [obj [("actionType", PStr "REPORT")];
                         obj [("actionType", PStr "SHARE_VIA");
                              ("url", PStr "https://lnkd.in/first")];
                         obj [("actionType", PStr "SHARE_VIA");
                              ("url", PStr "https://lnkd.in/second")]])])])].

Definition sample_share_activity : LinkedinActivity :=
  {| actor_urn := "urn:li:member:1"; actor_type := "member"; actor_name := "Ann";
     dash_entity_urn := ""; entity_urn := sample_urn;
     url := "https://lnkd.in/first"; caption := ""; post_urn := "";
     is_shared := false; shared_caption := "";
     is_reposted := false; is_liked := false; is_commented := false;
     comment := "";
     timestamp := {| dt_seconds := 1698364445; dt_microsecond := 927000 |} |}.



(** A comment whose creation time is given in milliseconds. *)
Definition sample_comment_millis : gmap string pyval :=
  list_to_map [("actor", sample_actor); ("entityUrn", PStr sample_urn);
               ("header", text_node "Ann commented on this");
               ("highlightedComments",
                PList [obj [("commentV2", obj [("text", PStr "nice")]);
                            ("createdTime", PInt 1700000000000)]])].

Definition sample_comment_millis_activity : LinkedinActivity :=
  {| actor_urn := "urn:li:member:1"; actor_type := "member"; actor_name := "Ann";
     dash_entity_urn := ""; entity_urn := sample_urn; url := ""; caption := "";
     post_urn := ""; is_shared := false; shared_caption := "";
     is_reposted := false; is_liked := false; is_commented := true;
     comment := "";
     timestamp := {| dt_seconds := 1698364445; dt_microsecond := 927000 |} |}.

(** The list starts a new mapping at the next author name. *)
Definition at_boundary (l : list (gmap string pyval)) : Prop :=
  l = [] ∨ ∃ l0 cur, l = l0 ++ [cur] ∧ is_Some (cur !! "author_name").


(** * Properties *)

(** ** Strings *)

Section StringFacts.

#[local] Arguments String.append !_ _ /.

Lemma app_assoc_str (a b c : string) : (a +:+ b) +:+ c = a +:+ (b +:+ c).
Proof. induction a as [|x a IH]; simpl; [done | by rewrite IH]. Qed.

Lemma app_empty_r (a : string) : a +:+ "" = a.
Proof. induction a as [|x a IH]; simpl; [done | by rewrite IH]. Qed.

Lemma length_app_str (a b : string) :
  String.length (a +:+ b) = (String.length a + String.length b)%nat.
Proof. induction a as [|x a IH]; simpl; [done | by rewrite IH]. Qed.

Lemma prefix_app (p s : string) :
  String.prefix p s = true → s = p +:+ Str.drop (String.length p) s.
Proof.
  revert s. induction p as [|x p IH]; intros [|y s]; simpl; try done.
  destruct (ascii_dec x y) as [->|]; [|done].
  intros H. by rewrite <- (IH s H).
Qed.

Lemma prefix_of_app (p s : string) : String.prefix p (p +:+ s) = true.
Proof.
  induction p as [|x p IH]; simpl; [by destruct s|].
  by destruct (ascii_dec x x).
Qed.

Lemma take_all (k : nat) (s : string) :
  (String.length s ≤ k)%nat → Str.take k s = s.
Proof.
  revert k. induction s as [|c s IH]; intros [|k] H; simpl in *; try done; try lia.
  rewrite IH; [done | lia].
Qed.

Lemma take_app_le (k : nat) (s t : string) :
  (k ≤ String.length s)%nat → Str.take k (s +:+ t) = Str.take k s.
Proof.
  revert k. induction s as [|c s IH]; intros [|k] H; simpl in *;
    try done; try lia; try (by destruct t).
  rewrite IH; [done | lia].
Qed.

Lemma span_digits_all (ds : string) :
  Str.all_digits (Str.span_digits ds) = true.
Proof.
  induction ds as [|c ds IH]; simpl; [done|].
  destruct (Str.is_digit c) eqn:E; simpl; [by rewrite E | done].
Qed.

Lemma digit_not_colon (c : ascii) : Str.is_digit c = true → Ascii.eqb c ":" = false.
Proof.
  intros H. destruct (Ascii.eqb_spec c ":") as [->|]; [|done].
  by vm_compute in H.
Qed.

Lemma split_digits (ds : string) :
  Str.all_digits ds = true → Str.split ":" ds = [ds].
Proof.
  induction ds as [|c ds IH]; simpl; [done|].
  intros [Hc Hds]%andb_prop. rewrite (digit_not_colon c Hc), (IH Hds). done.
Qed.

Lemma split_urn_activity (ds : string) :
  Str.all_digits ds = true →
  last_item (Str.split ":" (urn_activity_prefix +:+ ds)) = Ok ds.
Proof.
  intros H. unfold urn_activity_prefix. simpl. by rewrite (split_digits ds H).
Qed.


Lemma digit_val_range (c : ascii) :
  Str.is_digit c = true → 0 ≤ Str.digit_val c < 10.
Proof.
  unfold Str.is_digit, Str.digit_val. intros [H1 H2]%andb_prop.
  apply N.leb_le in H1, H2. lia.
Qed.

Lemma decimal_nonneg (ds : string) : Str.all_digits ds = true → 0 ≤ decimal ds.
Proof.
  induction ds as [|c ds IH]; simpl; [lia|].
  intros [Hc Hds]%andb_prop. pose proof (digit_val_range c Hc).
  specialize (IH Hds). nia.
Qed.

Lemma int_digits_decimal (ds : string) (acc : Z) :
  Str.all_digits ds = true →
  int_digits 10 acc ds = Ok (acc * 10 ^ Z.of_nat (String.length ds) + decimal ds).
Proof.
  revert acc. induction ds as [|c ds IH]; intros acc; simpl int_digits; simpl Str.all_digits.
  - intros _. f_equal. simpl. lia.
  - intros [Hc Hds]%andb_prop. pose proof (digit_val_range c Hc) as Hr.
    rewrite Hc. replace (Str.digit_val c <? 10) with true by (symmetry; apply Z.ltb_lt; lia).
    simpl andb. cbv iota. rewrite (IH _ Hds). f_equal.
    change (decimal (String c ds)) with
      (Str.digit_val c * 10 ^ Z.of_nat (String.length ds) + decimal ds).
    change (String.length (String c ds)) with (S (String.length ds)).
    rewrite Nat2Z.inj_succ, Z.pow_succ_r by lia. ring.
Qed.

Lemma int_of_str_decimal (ds : string) :
  ds ≠ "" → Str.all_digits ds = true → int_of_str ds = Ok (decimal ds).
Proof.
  intros Hne Hds. destruct ds as [|c ds]; [done|].
  unfold int_of_str. rewrite (int_digits_decimal _ 0 Hds). f_equal; lia.
Qed.

Lemma int_digits_snoc (base acc : Z) (s : string) (c : ascii) :
  int_digits base acc (s +:+ String c "") =
  v ← int_digits base acc s;
  if Str.is_digit c && (Str.digit_val c <? base)
  then Ok (base * v + Str.digit_val c) else Raise ValueError.
Proof.
  revert acc. induction s as [|x s IH]; intros acc; simpl.
  - by destruct (Str.is_digit c && (Str.digit_val c <? base)).
  - destruct (Str.is_digit x && (Str.digit_val x <? base)); [apply IH | done].
Qed.

Lemma length_bits_of_pos (p : positive) :
  String.length (bits_of_pos p) = Pos.size_nat p.
Proof.
  induction p as [p IH|p IH|]; simpl; rewrite ?length_app_str, ?IH; simpl; lia.
Qed.

Lemma int_digits_bits (p : positive) : int_digits 2 0 (bits_of_pos p) = Ok (Z.pos p).
Proof.
  induction p as [p IH|p IH|]; [| |done];
    simpl bits_of_pos; rewrite int_digits_snoc, IH; simpl; f_equal.
Qed.

Lemma size_nat_log2 (p : positive) :
  Z.of_nat (Pos.size_nat p) = Z.log2 (Z.pos p) + 1.
Proof.
  assert (H : ∀ q, Z.of_nat (Pos.size_nat q) = Z.pos (Pos.size q)).
  { induction q as [q IH|q IH|]; simpl Pos.size_nat; simpl Pos.size; [| |done];
      rewrite Nat2Z.inj_succ, IH; lia. }
  destruct p as [p|p|]; simpl Z.log2; simpl Pos.size_nat; [| |done];
    rewrite Nat2Z.inj_succ, H; lia.
Qed.

(** Reading the first [k] binary digits of [p] gives [p] shifted right by the
    number of digits left out. *)
Lemma int_digits_take_bits (p : positive) (k : nat) :
  (1 ≤ k)%nat →
  int_digits 2 0 (Str.take k (bits_of_pos p)) =
  Ok (Z.shiftr (Z.pos p) (Z.of_nat (Pos.size_nat p - k))).
Proof.
  intros Hk. induction p as [p IH|p IH|].
  - simpl bits_of_pos. destruct (decide (k ≤ Pos.size_nat p)%nat) as [Hle|Hgt].
    + rewrite take_app_le by (by rewrite length_bits_of_pos).
      rewrite IH. f_equal. simpl Pos.size_nat.
      replace (Z.of_nat (S (Pos.size_nat p) - k))
        with (Z.succ (Z.of_nat (Pos.size_nat p - k))) by lia.
      rewrite !Z.shiftr_div_pow2 by lia. rewrite Z.pow_succ_r by lia.
      rewrite <- Z.div_div by lia. f_equal.
      rewrite Pos2Z.inj_xI. apply (Z.div_unique _ 2 _ 1); lia.
    + rewrite take_all by (rewrite length_app_str, length_bits_of_pos; simpl; lia).
      rewrite int_digits_snoc, int_digits_bits. simpl Pos.size_nat.
      replace (S (Pos.size_nat p) - k)%nat with 0%nat by lia. done.
  - simpl bits_of_pos. destruct (decide (k ≤ Pos.size_nat p)%nat) as [Hle|Hgt].
    + rewrite take_app_le by (by rewrite length_bits_of_pos).
      rewrite IH. f_equal. simpl Pos.size_nat.
      replace (Z.of_nat (S (Pos.size_nat p) - k))
        with (Z.succ (Z.of_nat (Pos.size_nat p - k))) by lia.
      rewrite !Z.shiftr_div_pow2 by lia. rewrite Z.pow_succ_r by lia.
      rewrite <- Z.div_div by lia. f_equal.
      rewrite Pos2Z.inj_xO. apply (Z.div_unique _ 2 _ 0); lia.
    + rewrite take_all by (rewrite length_app_str, length_bits_of_pos; simpl; lia).
      rewrite int_digits_snoc, int_digits_bits. simpl Pos.size_nat.
      replace (S (Pos.size_nat p) - k)%nat with 0%nat by lia. done.
  - destruct k as [|k]; [lia|]. simpl.
    replace (Str.take k "") with "" by (by destruct k). done.
Qed.

Lemma first_41_value (n : Z) :
  0 ≤ n → int_of_str_base2 (Str.take 43 (bin n)) = Ok (leading_41_bits n).
Proof.
  intros Hn. destruct n as [|p|p]; [done| |lia].
  change (Str.take 43 (bin (Z.pos p))) with ("0b" +:+ Str.take 41 (bits_of_pos p)).
  assert (Hbody : ∃ c t, Str.take 41 (bits_of_pos p) = String c t).
  { destruct p; simpl; eauto.
    - destruct (bits_of_pos p); simpl; eauto.
    - destruct (bits_of_pos p); simpl; eauto. }
  destruct Hbody as (c & t & Hbody).
  unfold int_of_str_base2. rewrite Hbody. simpl String.append. cbv iota beta.
  rewrite <- Hbody, int_digits_take_bits by lia. f_equal.
  unfold leading_41_bits. pose proof (size_nat_log2 p) as Hsz.
  destruct (Z.ltb_spec (Z.pos p) (2 ^ 40)) as [Hlt|Hge].
  - assert (Z.log2 (Z.pos p) < 40) by (apply Z.log2_lt_pow2; lia).
    replace (Pos.size_nat p - 41)%nat with 0%nat by lia. done.
  - assert (40 ≤ Z.log2 (Z.pos p)) by (apply Z.log2_le_pow2; lia).
    f_equal. lia.
Qed.


(** ** The pattern search *)

Lemma span_digits_cons (t : string) (d : ascii) (x : string) :
  Str.span_digits t = String d x →
  ∃ r, t = String d r ∧ Str.is_digit d = true.
Proof.
  destruct t as [|c t]; simpl; [done|].
  destruct (Str.is_digit c) eqn:E; [|done]. intros [= -> _]. eauto.
Qed.

Lemma span_digits_app (ds rest : string) :
  Str.all_digits ds = true → Str.span_digits rest = "" →
  Str.span_digits (ds +:+ rest) = ds.
Proof.
  intros Hds Hrest. induction ds as [|c ds IH]; simpl in *; [done|].
  apply andb_prop in Hds as [Hc Hds]. by rewrite Hc, IH.
Qed.

Lemma drop_prefix_app (x : string) :
  Str.drop (String.length urn_activity_prefix) (urn_activity_prefix +:+ x) = x.
Proof. done. Qed.

Lemma match_at_inv (s m : string) :
  match_urn_activity_at s = Some m →
  ∃ d r, Str.is_digit d = true ∧ s = urn_activity_prefix +:+ String d r ∧
    m = urn_activity_prefix +:+
        Str.span_digits (Str.drop (String.length urn_activity_prefix) s).
Proof.
  unfold match_urn_activity_at.
  destruct (String.prefix urn_activity_prefix s) eqn:Hp; [|done].
  apply prefix_app in Hp.
  destruct (Str.span_digits _) as [|d x] eqn:Hs; [done|].
  intros [= <-]. apply span_digits_cons in Hs as (r & Hr & Hd).
  exists d, r. split; [done|]. split; [|done]. by rewrite <- Hr.
Qed.

Lemma match_at_digits (ds rest : string) :
  ds ≠ "" → Str.all_digits ds = true → Str.span_digits rest = "" →
  match_urn_activity_at (urn_activity_prefix +:+ ds +:+ rest)
  = Some (urn_activity_prefix +:+ ds).
Proof.
  intros Hne Hds Hrest. unfold match_urn_activity_at.
  rewrite prefix_of_app, drop_prefix_app, span_digits_app by done.
  by destruct ds.
Qed.

(** Two ways of cutting one string: the shorter head is a prefix of the
    longer one. *)
Lemma app_eq_app_le (b a x y : string) :
  a +:+ x = b +:+ y → (String.length b ≤ String.length a)%nat →
  ∃ z, a = b +:+ z.
Proof.
  revert a. induction b as [|c b IH]; intros a H Hlen; simpl in *.
  - by exists a.
  - destruct a as [|c' a]; simpl in *; [lia|].
    injection H as -> H. destruct (IH a H) as [z ->]; [lia|]. by exists z.
Qed.

Lemma embeds_cons (c : ascii) (s : string) :
  embeds_activity_urn s → embeds_activity_urn (String c s).
Proof. intros (pre & d & rest & Hd & ->). by exists (String c pre), d, rest. Qed.

Lemma match_at_embeds (s m : string) :
  match_urn_activity_at s = Some m → embeds_activity_urn s.
Proof.
  intros (d & r & Hd & -> & _)%match_at_inv. by exists "", d, r.
Qed.

Lemma re_search_unfold (s : string) :
  re_search_urn_activity s =
  match match_urn_activity_at s with
  | Some m => Some m
  | None =>
      match s with
      | EmptyString => None
      | String _ s' => re_search_urn_activity s'
      end
  end.
Proof. by destruct s. Qed.

(** No occurrence: the search finds nothing. *)
Lemma re_search_none (s : string) :
  ¬ embeds_activity_urn s → re_search_urn_activity s = None.
Proof.
  induction s as [|c s IH]; intros Hno; simpl.
  - destruct (match_urn_activity_at "") eqn:E; [|done].
    destruct Hno. by eapply match_at_embeds.
  - destruct (match_urn_activity_at (String c s)) eqn:E.
    + destruct Hno. by eapply match_at_embeds.
    + apply IH. intros H. by apply Hno, embeds_cons.
Qed.

(** The leftmost occurrence is the one the search returns. *)
Lemma re_search_first (s ds : string) :
  first_activity_id s ds →
  re_search_urn_activity s = Some (urn_activity_prefix +:+ ds).
Proof.
  intros (pre & rest & -> & Hne & Hds & Hrest & Hfirst).
  induction pre as [|c pre IH]; rewrite re_search_unfold.
  - change ("" +:+ urn_activity_prefix +:+ ds +:+ rest)
      with (urn_activity_prefix +:+ ds +:+ rest).
    by rewrite match_at_digits.
  - destruct (match_urn_activity_at _) as [m|] eqn:E.
    + exfalso. apply match_at_inv in E as (d & r & Hd & E & _).
      apply Hfirst.
      destruct (app_eq_app_le (urn_activity_prefix +:+ String d "")
                  (String c pre +:+ urn_activity_prefix) (ds +:+ rest) r)
        as [z Hz].
      * rewrite !app_assoc_str. exact E.
      * rewrite !length_app_str. simpl. lia.
      * exists "", d, z. split; [done|]. rewrite Hz, app_assoc_str. done.
    + apply IH. intros H. apply Hfirst. by apply (embeds_cons c) in H.
Qed.


Lemma match_at_prefix_digit (d : ascii) (x : string) :
  Str.is_digit d = true →
  is_Some (match_urn_activity_at (urn_activity_prefix +:+ String d x)).
Proof.
  intros Hd. unfold match_urn_activity_at.
  rewrite prefix_of_app, drop_prefix_app. simpl. by rewrite Hd.
Qed.

Lemma re_search_embeds (s : string) :
  embeds_activity_urn s → is_Some (re_search_urn_activity s).
Proof.
  intros (pre & d & rest & Hd & ->).
  induction pre as [|c pre IH]; rewrite re_search_unfold.
  - destruct (match_at_prefix_digit d rest Hd) as [m Hm].
    change ("" +:+ urn_activity_prefix +:+ String d rest)
      with (urn_activity_prefix +:+ String d rest).
    rewrite Hm. by exists m.
  - destruct (match_urn_activity_at _); [done | exact IH].
Qed.

Lemma span_digits_split (t : string) :
  ∃ rest, t = Str.span_digits t +:+ rest ∧ Str.span_digits rest = "".
Proof.
  induction t as [|c t (rest & Ht & Hrest)]; [by exists ""|].
  simpl. destruct (Str.is_digit c) eqn:E.
  - exists rest. simpl. by rewrite <- Ht.
  - exists (String c t). simpl. by rewrite E.
Qed.

Lemma not_embeds_prefix : ¬ embeds_activity_urn urn_activity_prefix.
Proof.
  intros (pre & d & rest & _ & H). apply (f_equal String.length) in H.
  rewrite !length_app_str in H. simpl in H. lia.
Qed.

Lemma match_at_first (s m : string) :
  match_urn_activity_at s = Some m →
  ∃ ds, m = urn_activity_prefix +:+ ds ∧ first_activity_id s ds.
Proof.
  intros (d & r & Hd & Hs & Hm)%match_at_inv.
  rewrite Hs, drop_prefix_app in Hm.
  destruct (span_digits_split (String d r)) as (rest & Hsplit & Hrest).
  exists (Str.span_digits (String d r)). split; [done|].
  exists "", rest. repeat split.
  - rewrite Hs. change ("" +:+ urn_activity_prefix +:+ ?x) with (urn_activity_prefix +:+ x).
    by rewrite <- Hsplit.
  - simpl. by rewrite Hd.
  - apply span_digits_all.
  - done.
  - apply not_embeds_prefix.
Qed.

(** What the search returns is the leftmost occurrence. *)
Lemma re_search_some (s m : string) :
  re_search_urn_activity s = Some m →
  ∃ ds, m = urn_activity_prefix +:+ ds ∧ first_activity_id s ds.
Proof.
  revert m. induction s as [|c s IH]; intros m; rewrite re_search_unfold;
    destruct (match_urn_activity_at _) as [m0|] eqn:E;
    try (intros [= <-]; by apply match_at_first); try done.
  intros (ds & -> & pre & rest & -> & Hne & Hds & Hrest & Hfirst)%IH.
  exists ds. split; [done|]. exists (String c pre), rest. repeat split; try done.
  intros ([|c0 pre0] & d & r0 & Hd & H).
  - destruct (match_at_prefix_digit d (r0 +:+ ds +:+ rest) Hd) as [m Hm].
    replace (urn_activity_prefix +:+ String d (r0 +:+ ds +:+ rest))
      with (String c (pre +:+ urn_activity_prefix +:+ ds +:+ rest)) in Hm; [congruence|].
    change (String c (pre +:+ urn_activity_prefix +:+ ds +:+ rest))
      with (String c pre +:+ urn_activity_prefix +:+ ds +:+ rest).
    rewrite <- (app_assoc_str (String c pre)), H.
    change ("" +:+ ?x) with x. by rewrite app_assoc_str.
  - apply Hfirst. exists pre0, d, r0. split; [done|].
    change (String c pre +:+ urn_activity_prefix)
      with (String c (pre +:+ urn_activity_prefix)) in H.
    change (String c0 pre0 +:+ urn_activity_prefix +:+ String d r0)
      with (String c0 (pre0 +:+ urn_activity_prefix +:+ String d r0)) in H.
    by injection H.
Qed.

Lemma embeds_first (s : string) :
  embeds_activity_urn s → ∃ ds, first_activity_id s ds.
Proof.
  intros [m Hm]%re_search_embeds.
  destruct (re_search_some s m Hm) as (ds & _ & H). eauto.
Qed.

Lemma first_activity_id_embeds (s ds : string) :
  first_activity_id s ds → embeds_activity_urn s.
Proof.
  intros (pre & rest & -> & Hne & Hds & _).
  destruct ds as [|d ds]; [done|]. apply andb_prop in Hds as [Hd _].
  by exists pre, d, (ds +:+ rest).
Qed.

(** ** The decoder on a string with an occurrence *)

Lemma decode_first (s ds : string) :
  first_activity_id s ds →
  get_timestamp_from_entity_urn s
  = Ok (utc_from_millis (leading_41_bits (decimal ds))).
Proof.
  intros H. pose proof H as (pre & rest & _ & Hne & Hds & _).
  unfold get_timestamp_from_entity_urn.
  rewrite (re_search_first s ds H), (split_urn_activity ds Hds).
  cbn [mbind res_bind]. rewrite (int_of_str_decimal ds Hne Hds).
  cbn [mbind res_bind]. rewrite (first_41_value _ (decimal_nonneg ds Hds)). done.
Qed.

Lemma decode_total (s : string) :
  get_timestamp_from_entity_urn s = Raise AttributeError ∨
  ∃ ds, first_activity_id s ds ∧
    get_timestamp_from_entity_urn s
    = Ok (utc_from_millis (leading_41_bits (decimal ds))).
Proof.
  destruct (re_search_urn_activity s) as [m|] eqn:E.
  - right. apply re_search_some in E as (ds & _ & H).
    exists ds. split; [done|]. by apply decode_first.
  - left. unfold get_timestamp_from_entity_urn. by rewrite E.
Qed.

End StringFacts.

(** ** The extractor, one record *)

Section Extractor.

Implicit Types (d : gmap string pyval) (st : locals) (a : LinkedinActivity).

Lemma validate_str_ok (v : pyval) (s : string) :
  validate_str v = Ok s ↔ v = PStr s.
Proof. destruct v; simpl; split; congruence. Qed.

Lemma read_local_ok {A} (x : option A) (v : A) : read_local x = Ok v ↔ x = Some v.
Proof. destruct x; simpl; split; congruence. Qed.

(** The record yields an activity exactly when the two carried locals are
    bound, the identifier decodes and every extracted text is a string; the
    activity then holds the extracted values. *)
Lemma record_to_activity_spec st d a st' :
  record_to_activity st d = Ok (a, st') ↔
    (extract_actor st d).2 = Some (actor_type a) ∧
    (extract_actor st d).1 = PStr (actor_urn a) ∧
    extract_actor_name d = PStr (actor_name a) ∧
    extract_dash_entity_urn d = PStr (dash_entity_urn a) ∧
    extract_entity_urn d = PStr (entity_urn a) ∧
    extract_url st d = Some (PStr (url a)) ∧
    extract_caption d = PStr (caption a) ∧
    extract_post_urn d = PStr (post_urn a) ∧
    (classify d).1 = PStr (shared_caption a) ∧
    (classify d).2
      = mk_flags (is_shared a) (is_reposted a) (is_liked a) (is_commented a) ∧
    extract_comment (is_commented a) d = PStr (comment a) ∧
    get_timestamp_from_entity_urn (entity_urn a) = Ok (timestamp a) ∧
    st' = mk_locals (extract_actor st d).2 (extract_url st d).
Proof.
  unfold record_to_activity.
  destruct (extract_actor st d) as [v_urn l_type].
  destruct (classify d) as [v_scap [sh rp lk cm]]. cbn [fst snd f_shared f_reposted f_liked f_commented].
  split.
  - destruct l_type as [t|]; [|done]. cbn [read_local mbind res_bind].
    destruct (extract_url st d) as [v_url|]; [|done]. cbn [read_local mbind res_bind].
    destruct (extract_entity_urn d) as [| | | |s| |]; try done. cbn [timestamp_of validate_str].
    destruct (get_timestamp_from_entity_urn s) as [ts|] eqn:Hts; [|done].
    cbn [mbind res_bind].
    destruct v_urn; try done. destruct (extract_actor_name d); try done.
    destruct (extract_dash_entity_urn d); try done.
    cbn [validate_str mbind res_bind].
    destruct v_url; try done. destruct (extract_caption d); try done.
    destruct (extract_post_urn d); try done. destruct v_scap; try done.
    cbn [validate_str mbind res_bind].
    destruct (extract_comment cm d) eqn:Hc; try done.
    cbn [validate_str mbind res_bind].
    intros [= <- <-]. cbn. rewrite Hc. done.
  - intros (-> & -> & -> & -> & -> & -> & -> & -> & -> & [= -> -> -> ->] & -> & Hts & ->).
    cbn [read_local timestamp_of validate_str mbind res_bind]. rewrite Hts.
    cbn [mbind res_bind]. by destruct a.
Qed.

(** The only exceptions that leave one iteration. *)
Lemma record_to_activity_raise st d e :
  record_to_activity st d = Raise e →
  e = UnboundLocalError ∨ e = TypeError ∨ e = AttributeError ∨ e = ValidationError.
Proof.
  unfold record_to_activity.
  destruct (extract_actor st d) as [v_urn l_type].
  destruct (classify d) as [v_scap fl].
  destruct l_type as [t|]; cbn [read_local mbind res_bind]; [|intros [= <-]; auto].
  destruct (extract_url st d) as [v_url|]; cbn [read_local mbind res_bind];
    [|intros [= <-]; auto].
  destruct (extract_entity_urn d) as [| | | |s| |]; cbn [timestamp_of mbind res_bind];
    try (intros [= <-]; by auto).
  destruct (decode_total s) as [-> | (ds & _ & ->)]; cbn [mbind res_bind];
    [intros [= <-]; auto|].
  repeat match goal with
  | |- mbind _ (validate_str ?v) = Raise _ → _ =>
      destruct v; cbn [validate_str mbind res_bind]; try (intros [= <-]; by auto)
  end.
Qed.


(** *** A missing top-level key *)

Lemma getitem_missing d (k : string) :
  d !! k = None → getitem (PDict d) k = Raise KeyError.
Proof. intros H. unfold getitem. by rewrite H. Qed.

Lemma missing_actor st d :
  d !! "actor" = None →
  extract_actor st d = (PStr "", loc_actor_type st) ∧ extract_actor_name d = PStr "".
Proof.
  intros H. unfold extract_actor, extract_actor_name.
  by rewrite (getitem_missing d "actor" H).
Qed.

Lemma missing_dash_entity_urn d :
  d !! "dashEntityUrn" = None → extract_dash_entity_urn d = PStr "".
Proof. intros H. unfold extract_dash_entity_urn. by rewrite getitem_missing. Qed.

Lemma missing_entity_urn d :
  d !! "entityUrn" = None → extract_entity_urn d = PStr "".
Proof. intros H. unfold extract_entity_urn. by rewrite getitem_missing. Qed.

Lemma missing_update_metadata st d :
  d !! "updateMetadata" = None →
  extract_url st d = Some (PStr "") ∧ extract_post_urn d = PStr "".
Proof.
  intros H. unfold extract_url, extract_post_urn.
  by rewrite (getitem_missing d "updateMetadata" H).
Qed.

Lemma missing_reshared_update d :
  d !! "resharedUpdate" = None → reshared_commentary d = Raise KeyError.
Proof. intros H. unfold reshared_commentary. by rewrite getitem_missing. Qed.

Lemma missing_header d :
  d !! "header" = None → header_text d = Raise KeyError.
Proof. intros H. unfold header_text. by rewrite getitem_missing. Qed.

Lemma missing_highlighted_comments d (b : bool) :
  d !! "highlightedComments" = None → extract_comment b d = PStr "".
Proof.
  intros H. unfold extract_comment. rewrite getitem_missing by done. by destruct b.
Qed.

Lemma missing_commentary d :
  d !! "commentary" = None → extract_caption d = PStr "".
Proof. intros H. unfold extract_caption. by rewrite getitem_missing. Qed.

(** *** Classification *)

Lemma classify_shared d (c : pyval) :
  reshared_commentary d = Ok c → classify d = (c, only_shared).
Proof. intros H. unfold classify. by rewrite H. Qed.

Lemma classify_not_shared d (e : exn) :
  reshared_commentary d = Raise e → classify d = (PStr "", classify_header d).
Proof. intros H. unfold classify. by rewrite H. Qed.

Lemma classify_header_text d (h : string) :
  header_text d = Ok (PStr h) → classify_header d = header_flags h.
Proof.
  intros H. unfold classify_header, header_flags. rewrite H.
  cbn [mbind res_bind py_in].
  destruct (Str.contains "reposted this" h); [done|].
  cbn [mbind res_bind py_in]. by destruct (Str.contains "commented on this" h).
Qed.

Lemma classify_header_absent d (e : exn) :
  header_text d = Raise e → classify_header d = no_flag.
Proof. intros H. unfold classify_header. by rewrite H. Qed.

(** A header value on which [in] is not defined is treated like an absent
    one. *)
Lemma classify_header_malformed d (v : pyval) (e : exn) :
  header_text d = Ok v → py_in "reposted this" v = Raise e →
  classify_header d = no_flag.
Proof.
  intros Hv He. unfold classify_header. rewrite Hv. cbn [mbind res_bind].
  by rewrite He.
Qed.

Lemma classify_header_never_shared d : f_shared (classify_header d) = false.
Proof.
  unfold classify_header. destruct (header_text d) as [h|]; [|done].
  cbn [mbind res_bind].
  destruct (py_in "reposted this" h) as [[]|]; try done. cbn [mbind res_bind].
  by destruct (py_in "commented on this" h) as [[]|].
Qed.

Lemma classify_header_at_most_one d : (flag_count (classify_header d) ≤ 1)%nat.
Proof.
  unfold classify_header. destruct (header_text d) as [h|]; [|cbn; lia].
  cbn [mbind res_bind].
  destruct (py_in "reposted this" h) as [[]|]; try (cbn; lia). cbn [mbind res_bind].
  destruct (py_in "commented on this" h) as [[]|]; cbn; lia.
Qed.

Lemma classify_at_most_one d : (flag_count (classify d).2 ≤ 1)%nat.
Proof.
  unfold classify. destruct (reshared_commentary d); cbn [snd]; [cbn; lia|].
  apply classify_header_at_most_one.
Qed.

Lemma header_flags_one (h : string) : flag_count (header_flags h) = 1%nat.
Proof.
  unfold header_flags. destruct (Str.contains "reposted this" h); [done|].
  by destruct (Str.contains "commented on this" h).
Qed.

Lemma activity_flags d a : activity_of d a → flags_of a = (classify d).2.
Proof.
  intros (st & st' & H). apply record_to_activity_spec in H.
  by destruct H as (_ & _ & _ & _ & _ & _ & _ & _ & _ & -> & _).
Qed.

(** ** The extractor, the whole list *)

Lemma activities_loop_spec st (acc : list LinkedinActivity)
    (data : list (gmap string pyval)) (acts : list LinkedinActivity) :
  activities_loop st acc data = Ok acts →
  ∃ new, acts = acc ++ new ∧ Forall2 activity_of data new.
Proof.
  revert st acc. induction data as [|d data IH]; intros st acc; simpl.
  - intros [= <-]. exists []. by rewrite app_nil_r.
  - destruct (record_to_activity st d) as [[a st']|] eqn:Hd; [|done].
    cbn [mbind res_bind]. intros (new & -> & Hnew)%IH.
    exists (a :: new). split; [by rewrite <- app_assoc|].
    constructor; [by exists st, st' | done].
Qed.

Lemma activities_loop_raise st (acc : list LinkedinActivity)
    (data : list (gmap string pyval)) (e : exn) :
  activities_loop st acc data = Raise e →
  ∃ st0 d, d ∈ data ∧ record_to_activity st0 d = Raise e.
Proof.
  revert st acc. induction data as [|d data IH]; intros st acc; simpl; [done|].
  destruct (record_to_activity st d) as [[a st']|] eqn:Hd; cbn [mbind res_bind].
  - intros (st0 & d0 & Hin & H)%IH. exists st0, d0. split; [by right | done].
  - intros [= <-]. exists st, d. split; [by left | done].
Qed.

Lemma elements_activity_of (data : list (gmap string pyval))
    (acts : list LinkedinActivity) :
  elements_to_linkedin_activity data = Ok acts → Forall2 activity_of data acts.
Proof. by intros (new & -> & H)%activities_loop_spec. Qed.

Lemma elements_lookup (data : list (gmap string pyval))
    (acts : list LinkedinActivity) (i : nat) d a :
  elements_to_linkedin_activity data = Ok acts →
  data !! i = Some d → acts !! i = Some a → activity_of d a.
Proof.
  intros H%elements_activity_of Hd Ha. by eapply Forall2_lookup_lr.
Qed.

(** [actor_type] is assigned only when the actor identifier has "company"
    or "member" in it: on a first record where it has neither, or has no
    actor at all, the name is unbound when the activity is built. *)
Example first_record_unbound_actor_type :
  elements_to_linkedin_activity [sample_unknown_actor] = Raise UnboundLocalError ∧
  elements_to_linkedin_activity [delete "actor" sample_bare] = Raise UnboundLocalError.
Proof. split; vm_compute; reflexivity. Qed.

End Extractor.

(** ** The feed assembler *)

Section FeedAssembler.

Implicit Types (l_posts sorted : list (gmap string pyval)) (post : gmap string pyval).

Lemma filter_not_in_spec (needle key : string) l_posts kept :
  filter_not_in needle key l_posts = Ok kept →
  kept ⊆ l_posts ∧
  Forall (λ d, py_in needle (dict_get d key) = Ok false) kept.
Proof.
  revert kept. induction l_posts as [|d l IH]; intros kept; simpl.
  - intros [= <-]. split; [done | constructor].
  - destruct (py_in needle (dict_get d key)) as [found|] eqn:Hd; [|done].
    cbn [mbind res_bind].
    destruct (filter_not_in needle key l) as [kept'|]; [|done].
    cbn [mbind res_bind]. destruct (IH kept' eq_refl) as [Hsub Hall].
    intros [= <-]. destruct found.
    + split; [|done]. by apply list_subseteq_cons.
    + split; [|by constructor].
      intros x [->|Hx]%elem_of_cons; [by left | right; by apply Hsub].
Qed.

Lemma filter_not_in_id (needle key : string) l_posts :
  Forall (λ d, py_in needle (dict_get d key) = Ok false) l_posts →
  filter_not_in needle key l_posts = Ok l_posts.
Proof.
  induction 1 as [|d l Hd _ IH]; simpl; [done|]. by rewrite Hd, IH.
Qed.

Lemma find_post_some (urn : string) l_posts post :
  find_post urn l_posts = Ok (Some post) → post ∈ l_posts.
Proof.
  induction l_posts as [|p l IH]; cbn [find_post]; [done|].
  destruct (getitem (PDict p) "url") as [u|]; [|done]. cbn [mbind res_bind].
  destruct (py_in urn u) as [[]|]; cbn [mbind res_bind]; [| |done].
  - intros [= <-]. by left.
  - intros H. right. by apply IH.
Qed.

Lemma find_post_none (urn : string) l_posts :
  find_post urn l_posts = Ok None ↔
  Forall (λ post, url_contains urn post = Ok false) l_posts.
Proof.
  unfold url_contains. induction l_posts as [|p l IH]; cbn [find_post].
  - split; [constructor | done].
  - rewrite Forall_cons. cbn beta.
    destruct (getitem (PDict p) "url") as [u|]; cbn [mbind res_bind];
      [|split; [done | by intros [? _]]].
    destruct (py_in urn u) as [[]|]; cbn [mbind res_bind].
    + split; [done | by intros [? _]].
    + rewrite IH. split; [done | by intros [_ ?]].
    + split; [done | by intros [? _]].
Qed.

(** A post without a ["url"] key stops the scan. *)
Lemma find_post_no_url (urn : string) post l_posts :
  post !! "url" = None → find_post urn (post :: l_posts) = Raise KeyError.
Proof. intros H. cbn [find_post getitem]. by rewrite H. Qed.

Lemma place_urn_skip (urn : string) sorted l_posts :
  Forall (λ post, url_contains urn post = Ok false) l_posts →
  place_urn urn (sorted, l_posts) = Ok (sorted, l_posts).
Proof.
  intros H%find_post_none. unfold place_urn. by rewrite H.
Qed.

Lemma place_urn_spec (urn : string) sorted l_posts sorted' l_posts' :
  place_urn urn (sorted, l_posts) = Ok (sorted', l_posts') →
  l_posts' ⊆ l_posts ∧
  ∃ new, sorted' = sorted ++ new ∧ new ⊆ l_posts.
Proof.
  unfold place_urn.
  destruct (find_post urn l_posts) as [[post|]|] eqn:Hf; cbn [mbind res_bind];
    [| |done].
  - destruct (filter_not_in urn "url" l_posts) as [kept|] eqn:Hk; [|done].
    cbn [mbind res_bind]. intros [= <- <-].
    apply filter_not_in_spec in Hk as [Hsub _]. split; [done|].
    exists [post]. split; [done|].
    intros x ->%list_elem_of_singleton. by eapply find_post_some.
  - intros [= <- <-]. split; [done|]. exists [].
    split; [by rewrite app_nil_r | apply list_subseteq_nil].
Qed.

Lemma place_urns_spec (l_urns : list string) sorted l_posts sorted' l_posts' :
  place_urns l_urns (sorted, l_posts) = Ok (sorted', l_posts') →
  l_posts' ⊆ l_posts ∧
  ∃ new, sorted' = sorted ++ new ∧ new ⊆ l_posts.
Proof.
  revert sorted l_posts. induction l_urns as [|urn l IH]; intros sorted l_posts;
    cbn [place_urns].
  - intros [= <- <-]. split; [done|]. exists [].
    split; [by rewrite app_nil_r | apply list_subseteq_nil].
  - destruct (place_urn urn (sorted, l_posts)) as [[s1 p1]|] eqn:H1; [|done].
    cbn [mbind res_bind]. intros (Hsub2 & new2 & -> & Hnew2)%IH.
    apply place_urn_spec in H1 as (Hsub1 & new1 & -> & Hnew1).
    split; [by etrans|]. exists (new1 ++ new2). split; [by rewrite app_assoc|].
    intros x [?|?]%elem_of_app; [by apply Hnew1 | by apply Hsub1, Hnew2].
Qed.

Lemma place_urns_app (l1 l2 : list string)
    (s : list (gmap string pyval) * list (gmap string pyval)) :
  place_urns (l1 ++ l2) s = (s' ← place_urns l1 s; place_urns l2 s').
Proof.
  revert s. induction l1 as [|urn l1 IH]; intros s; cbn [place_urns app]; [done|].
  destruct (place_urn urn s) as [s1|]; cbn [mbind res_bind]; [apply IH | done].
Qed.

(** Every post returned was in the input and passed the test of line 231. *)
Lemma sorted_posts_spec (l_urns : list string) l_posts sorted remaining :
  get_list_posts_sorted_without_promoted l_urns l_posts = Ok (sorted, remaining) →
  Forall (λ post, post ∈ l_posts ∧ promoted post = Ok false) sorted.
Proof.
  unfold get_list_posts_sorted_without_promoted.
  destruct (filter_not_in "Promoted" "old" l_posts) as [kept|] eqn:Hk; [|done].
  cbn [mbind res_bind]. intros (_ & new & -> & Hnew)%place_urns_spec.
  apply filter_not_in_spec in Hk as [Hsub Hall].
  rewrite Forall_forall in Hall. apply Forall_forall. intros post Hp.
  rewrite app_nil_l in Hp. split; [by apply Hsub, Hnew|]. by apply Hall, Hnew.
Qed.

End FeedAssembler.

(** * The stated properties *)

Implicit Types (d : gmap string pyval) (st : locals) (a : LinkedinActivity).
Implicit Types (data : list (gmap string pyval)) (acts : list LinkedinActivity).

(** ** Helpers shared by the statements below *)

Lemma not_embeds_of_search (s : string) :
  re_search_urn_activity s = None → ¬ embeds_activity_urn s.
Proof. intros H [m Hm]%re_search_embeds. congruence. Qed.


Lemma decode_no_occurrence (s : string) :
  ¬ embeds_activity_urn s →
  get_timestamp_from_entity_urn s = Raise AttributeError.
Proof.
  intros H. unfold get_timestamp_from_entity_urn. by rewrite re_search_none.
Qed.

Lemma extract_entity_urn_present d (v : pyval) :
  d !! "entityUrn" = Some v → extract_entity_urn d = v.
Proof. intros H. unfold extract_entity_urn, getitem. by rewrite H. Qed.

Lemma activity_entity_urn d a :
  activity_of d a →
  extract_entity_urn d = PStr (entity_urn a) ∧
  get_timestamp_from_entity_urn (entity_urn a) = Ok (timestamp a).
Proof.
  intros (st & st' & H). apply record_to_activity_spec in H.
  by destruct H as (_ & _ & _ & _ & ? & _ & _ & _ & _ & _ & _ & ? & _).
Qed.

Lemma activity_defaults d a : activity_of d a → defaults_hold d a.
Proof.
  intros (st & st' & H). apply record_to_activity_spec in H.
  destruct H as (Hty & Hurn & Hname & Hdash & Hent & Hurl & Hcap & Hpurn
                 & Hscap & Hfl & Hcom & Hts & _).
  assert (Hhdr : d !! "header" = None →
            (classify d).2 = only_shared ∨ (classify d).2 = no_flag).
  { intros Hk. unfold classify. destruct (reshared_commentary d); cbn [snd];
      [by left | right]. by apply (classify_header_absent d KeyError), missing_header. }
  unfold defaults_hold. repeat match goal with |- _ ∧ _ => split end; intros Hk.
  - destruct (missing_actor st d Hk) as [E1 E2].
    rewrite E1 in Hurn. rewrite E2 in Hname. by injection Hurn; injection Hname.
  - rewrite (missing_dash_entity_urn d Hk) in Hdash. by injection Hdash.
  - destruct (missing_update_metadata st d Hk) as [E1 E2].
    rewrite E1 in Hurl. rewrite E2 in Hpurn. by injection Hurl; injection Hpurn.
  - rewrite (classify_not_shared d _ (missing_reshared_update d Hk)) in Hfl, Hscap.
    cbn [fst snd] in Hfl, Hscap. pose proof (classify_header_never_shared d) as Hns.
    rewrite Hfl in Hns. split; [exact Hns | by injection Hscap].
  - destruct (Hhdr Hk) as [E|E]; rewrite E in Hfl; by injection Hfl.
  - rewrite (missing_highlighted_comments d _ Hk) in Hcom. by injection Hcom.
  - rewrite (missing_commentary d Hk) in Hcap. by injection Hcap.
Qed.

Lemma not_embeds_empty : ¬ embeds_activity_urn "".
Proof. by apply not_embeds_of_search. Qed.

(** A record whose identifier does not decode yields no activity. *)
Lemma undecodable_no_activity d (s : string) a :
  extract_entity_urn d = PStr s → ¬ embeds_activity_urn s → ¬ activity_of d a.
Proof.
  intros Hs Hno [Hent Hts]%activity_entity_urn.
  rewrite Hs in Hent. injection Hent as ->.
  rewrite (decode_no_occurrence _ Hno) in Hts. done.
Qed.

Lemma elements_raises_on d (s : string) data :
  d ∈ data → extract_entity_urn d = PStr s → ¬ embeds_activity_urn s →
  ∃ e, elements_to_linkedin_activity data = Raise e.
Proof.
  intros Hin Hs Hno.
  destruct (elements_to_linkedin_activity data) as [acts|e] eqn:E; [|by exists e].
  apply elements_activity_of in E. apply list_elem_of_lookup in Hin as [i Hi].
  destruct (Forall2_lookup_l _ _ _ _ _ E Hi) as (a & _ & Ha).
  by destruct (undecodable_no_activity d s a).
Qed.


(** ** The activity extractor *)

(** The activity built from a record that has its identifier and none of the
    seven other top-level keys. *)
Lemma bare_record_activity st d (s ds t : string) :
  d !! "entityUrn" = Some (PStr s) → first_activity_id s ds →
  loc_actor_type st = Some t →
  d !! "actor" = None → d !! "dashEntityUrn" = None →
  d !! "updateMetadata" = None → d !! "resharedUpdate" = None →
  d !! "header" = None → d !! "highlightedComments" = None →
  d !! "commentary" = None →
  record_to_activity st d
  = Ok ({| actor_urn := ""; actor_type := t; actor_name := "";
           dash_entity_urn := ""; entity_urn := s; url := ""; caption := "";
           post_urn := ""; is_shared := false; shared_caption := "";
           is_reposted := false; is_liked := false; is_commented := false;
           comment := "";
           timestamp := utc_from_millis (leading_41_bits (decimal ds)) |},
        {| loc_actor_type := Some t; loc_url := Some (PStr "") |}).
Proof.
  intros Hent Hid Ht Hactor Hdash Hmeta Hresh Hhdr Hhl Hcom.
  apply record_to_activity_spec.
  destruct (missing_actor st d Hactor) as [-> ->].
  destruct (missing_update_metadata st d Hmeta) as [-> ->].
  rewrite (missing_dash_entity_urn d Hdash), (extract_entity_urn_present d _ Hent),
    (missing_commentary d Hcom), (missing_highlighted_comments d _ Hhl),
    (classify_not_shared d _ (missing_reshared_update d Hresh)),
    (classify_header_absent d _ (missing_header d Hhdr)).
  cbn. rewrite Ht, (decode_first s ds Hid). done.
Qed.

(** C1 (amended).  A top-level key missing from a raw record is recovered
    where it is read: in the activity returned for the record, the fields
    read under [actor], [dashEntityUrn], [updateMetadata], [resharedUpdate],
    [header], [highlightedComments] and [commentary] hold their default (the
    empty string, [false] for the flags) when the key is absent; no
    [KeyError] or [IndexError] ever leaves [elements_to_linkedin_activity];
    and a record that has a decodable [entityUrn] and none of the seven other
    keys is turned into the activity made of defaults.  The key [entityUrn]
    is the exception: a batch holding a record without it raises. *)
Theorem missing_key_recovered :
  (∀ data acts (i : nat) d a,
     elements_to_linkedin_activity data = Ok acts →
     data !! i = Some d → acts !! i = Some a →
     defaults_hold d a ∧ is_Some (d !! "entityUrn")) ∧
  (∀ data (e : exn),
     elements_to_linkedin_activity data = Raise e →
     e ≠ KeyError ∧ e ≠ IndexError) ∧
  (∀ st d (s ds t : string),
     d !! "entityUrn" = Some (PStr s) → first_activity_id s ds →
     loc_actor_type st = Some t →
     d !! "actor" = None → d !! "dashEntityUrn" = None →
     d !! "updateMetadata" = None → d !! "resharedUpdate" = None →
     d !! "header" = None → d !! "highlightedComments" = None →
     d !! "commentary" = None →
     ∃ a st', record_to_activity st d = Ok (a, st') ∧
       actor_urn a = "" ∧ actor_name a = "" ∧ dash_entity_urn a = "" ∧
       url a = "" ∧ caption a = "" ∧ post_urn a = "" ∧ shared_caption a = "" ∧
       comment a = "" ∧ flags_of a = no_flag) ∧
  (∀ data d,
     d ∈ data → d !! "entityUrn" = None →
     ∃ e, elements_to_linkedin_activity data = Raise e).
Proof.
  split; [|split; [|split]].
  - intros data acts i d a Hrun Hd Ha.
    pose proof (elements_lookup data acts i d a Hrun Hd Ha) as Hof.
    split; [by apply activity_defaults|].
    destruct (d !! "entityUrn") as [v|] eqn:Hk; [by exists v|].
    destruct (undecodable_no_activity d "" a); auto using not_embeds_empty.
    by apply missing_entity_urn.
  - intros data e (st0 & d & _ & Hd)%activities_loop_raise.
    apply record_to_activity_raise in Hd.
    split; intros ->; by destruct Hd as [|[|[|]]].
  - intros st d s ds t Hent Hid Ht Hactor Hdash Hmeta Hresh Hhdr Hhl Hcom.
    eexists _, _. split; [by eapply bare_record_activity|]. by cbn.
  - intros data d Hin Hk. apply (elements_raises_on d "" data Hin).
    + by apply missing_entity_urn.
    + apply not_embeds_empty.
Qed.

(** The second record has only its identifier: its actor fields are empty
    and its other fields hold their defaults. *)
Lemma missing_key_recovered_witness :
  elements_to_linkedin_activity [sample_like; sample_bare]
    = Ok [sample_like_activity; sample_bare_activity] ∧
  defaults_hold sample_bare sample_bare_activity.
Proof.
  assert (H : elements_to_linkedin_activity [sample_like; sample_bare]
              = Ok [sample_like_activity; sample_bare_activity])
    by (vm_compute; reflexivity).
  split; [exact H|].
  exact (proj1 (proj1 missing_key_recovered
                  [sample_like; sample_bare]
                  [sample_like_activity; sample_bare_activity]
                  1%nat sample_bare sample_bare_activity H eq_refl eq_refl)).
Defined.

(** C1 as stated fails: a record from which the top-level key [entityUrn] is
    missing makes the call raise, it is given no default. *)
Lemma missing_entity_urn_raises :
  sample_no_entity_urn !! "entityUrn" = None ∧
  elements_to_linkedin_activity [sample_no_entity_urn] = Raise AttributeError.
Proof. split; vm_compute; reflexivity. Qed.


(** C2.  A record that has both a reshared-update commentary and a header
    text containing "reposted this" gives an activity with [is_shared] set
    and [is_reposted] clear: the header branch is not entered, so [is_liked]
    and [is_commented] are clear as well. *)
Theorem shared_dominates_header data acts (i : nat) d a (c : pyval) (h : string) :
  elements_to_linkedin_activity data = Ok acts →
  data !! i = Some d → acts !! i = Some a →
  reshared_commentary d = Ok c →
  header_text d = Ok (PStr h) → Str.contains "reposted this" h = true →
  is_shared a = true ∧ is_reposted a = false ∧
  is_liked a = false ∧ is_commented a = false.
Proof.
  intros Hrun Hd Ha Hc _ _.
  pose proof (activity_flags d a (elements_lookup data acts i d a Hrun Hd Ha)) as Hfl.
  rewrite (classify_shared d c Hc) in Hfl. by injection Hfl.
Qed.

Lemma shared_dominates_header_witness :
  is_shared sample_reshare_activity = true ∧
  is_reposted sample_reshare_activity = false ∧
  is_liked sample_reshare_activity = false ∧
  is_commented sample_reshare_activity = false.
Proof.
  apply (shared_dominates_header [sample_reshare] [sample_reshare_activity]
           0%nat sample_reshare sample_reshare_activity
           (PStr "orig") "Ann reposted this");
    [vm_compute; reflexivity | reflexivity | reflexivity
    | vm_compute; reflexivity ..].
Defined.

(** C3.  Without reshared-update commentary, a header text decides the
    flags: "reposted this" sets [is_reposted]; otherwise "commented on this"
    sets [is_commented]; any other header text sets [is_liked]; and with no
    header text none of the three is set. *)
Theorem header_classification data acts (i : nat) d a (e : exn) :
  elements_to_linkedin_activity data = Ok acts →
  data !! i = Some d → acts !! i = Some a →
  reshared_commentary d = Raise e →
  (∀ h : string, header_text d = Ok (PStr h) →
     is_shared a = false ∧
     (Str.contains "reposted this" h = true →
        is_reposted a = true ∧ is_commented a = false ∧ is_liked a = false) ∧
     (Str.contains "reposted this" h = false →
      Str.contains "commented on this" h = true →
        is_reposted a = false ∧ is_commented a = true ∧ is_liked a = false) ∧
     (Str.contains "reposted this" h = false →
      Str.contains "commented on this" h = false →
        is_reposted a = false ∧ is_commented a = false ∧ is_liked a = true)) ∧
  (∀ e' : exn, header_text d = Raise e' →
     is_reposted a = false ∧ is_commented a = false ∧ is_liked a = false).
Proof.
  intros Hrun Hd Ha He.
  pose proof (activity_flags d a (elements_lookup data acts i d a Hrun Hd Ha)) as Hfl.
  rewrite (classify_not_shared d e He) in Hfl. cbn [snd] in Hfl. split.
  - intros h Hh. rewrite (classify_header_text d h Hh) in Hfl.
    unfold header_flags in Hfl.
    destruct (Str.contains "reposted this" h);
      [|destruct (Str.contains "commented on this" h)];
      injection Hfl as H1 H2 H3 H4; repeat split; intros; congruence.
  - intros e' He'. rewrite (classify_header_absent d e' He') in Hfl.
    by injection Hfl as H1 H2 H3 H4.
Qed.

Lemma header_classification_witness :
  is_shared sample_like_activity = false ∧
  is_reposted sample_like_activity = false ∧
  is_commented sample_like_activity = false ∧
  is_liked sample_like_activity = true.
Proof.
  destruct (header_classification
              [sample_comment; sample_like]
              [sample_comment_activity; sample_like_activity]
              1%nat sample_like sample_like_activity KeyError)
    as [Htext _];
    [vm_compute; reflexivity | reflexivity | reflexivity
    | vm_compute; reflexivity |].
  destruct (Htext "Ann liked this") as (Hs & _ & _ & Hl);
    [vm_compute; reflexivity|].
  destruct Hl as (? & ? & ?); [vm_compute; reflexivity ..|]. done.
Defined.

(** C4.  At most one of the four flags of an activity is set: exactly one
    when the record has reshared-update commentary or, failing that, a
    header text; none when it has neither (a header value that is no text,
    such as a number or null, counts as none). *)
Theorem one_flag_at_most data acts (i : nat) d a :
  elements_to_linkedin_activity data = Ok acts →
  data !! i = Some d → acts !! i = Some a →
  (flag_count (flags_of a) ≤ 1)%nat ∧
  (∀ c : pyval, reshared_commentary d = Ok c →
     flag_count (flags_of a) = 1%nat) ∧
  (∀ (e : exn) (h : string),
     reshared_commentary d = Raise e → header_text d = Ok (PStr h) →
     flag_count (flags_of a) = 1%nat) ∧
  (∀ e e' : exn,
     reshared_commentary d = Raise e → header_text d = Raise e' →
     flag_count (flags_of a) = 0%nat) ∧
  (∀ (e e' : exn) (v : pyval),
     reshared_commentary d = Raise e → header_text d = Ok v →
     py_in "reposted this" v = Raise e' →
     flag_count (flags_of a) = 0%nat).
Proof.
  intros Hrun Hd Ha.
  rewrite (activity_flags d a (elements_lookup data acts i d a Hrun Hd Ha)).
  split; [apply classify_at_most_one|]. split; [|split; [|split]].
  - intros c Hc. by rewrite (classify_shared d c Hc).
  - intros e h He Hh. rewrite (classify_not_shared d e He). cbn [snd].
    rewrite (classify_header_text d h Hh). apply header_flags_one.
  - intros e e' He He'. rewrite (classify_not_shared d e He). cbn [snd].
    by rewrite (classify_header_absent d e' He').
  - intros e e' v He Hv Hin. rewrite (classify_not_shared d e He). cbn [snd].
    by rewrite (classify_header_malformed d v e' Hv Hin).
Qed.

Lemma one_flag_at_most_witness :
  flag_count (flags_of sample_comment_activity) = 1%nat ∧
  flag_count (flags_of sample_bare_activity) = 0%nat.
Proof.
  split.
  - destruct (one_flag_at_most
                [sample_comment; sample_bare]
                [sample_comment_activity; sample_bare_activity]
                0%nat sample_comment sample_comment_activity)
      as (_ & _ & Hone & _);
      [vm_compute; reflexivity | reflexivity | reflexivity |].
    apply (Hone KeyError "Ann commented on this"); vm_compute; reflexivity.
  - destruct (one_flag_at_most
                [sample_comment; sample_bare]
                [sample_comment_activity; sample_bare_activity]
                1%nat sample_bare sample_bare_activity)
      as (_ & _ & _ & Hnone & _);
      [vm_compute; reflexivity | reflexivity | reflexivity |].
    apply (Hnone KeyError KeyError); vm_compute; reflexivity.
Defined.


(** C10.  When [elements_to_linkedin_activity] returns, its result has one
    activity per input record, in the order of the input: the activity at
    each position is the one built from the record at that position, and
    carries that record's [entityUrn]. *)
Theorem one_activity_per_record data acts :
  elements_to_linkedin_activity data = Ok acts →
  length acts = length data ∧
  Forall2 activity_of data acts ∧
  (∀ (i : nat) d, data !! i = Some d →
     ∃ a, acts !! i = Some a ∧ activity_of d a ∧
          d !! "entityUrn" = Some (PStr (entity_urn a))).
Proof.
  intros H%elements_activity_of. split; [symmetry; by eapply Forall2_length|].
  split; [done|]. intros i d Hd.
  destruct (Forall2_lookup_l _ _ _ _ _ H Hd) as (a & Ha & Hof).
  exists a. split; [done|]. split; [done|].
  destruct (activity_entity_urn d a Hof) as [Hent Hts].
  destruct (d !! "entityUrn") as [v|] eqn:Hk.
  - by rewrite (extract_entity_urn_present d v Hk) in Hent; subst.
  - destruct (undecodable_no_activity d "" a); auto using not_embeds_empty.
    by apply missing_entity_urn.
Qed.

Lemma one_activity_per_record_witness :
  length [sample_reshare_activity; sample_like_activity; sample_bare_activity]
  = length [sample_reshare; sample_like; sample_bare].
Proof.
  apply (one_activity_per_record
           [sample_reshare; sample_like; sample_bare]
           [sample_reshare_activity; sample_like_activity; sample_bare_activity]).
  vm_compute; reflexivity.
Defined.

(** ** The identifier decoder *)








(** ** The feed assembler *)

(** C8.  No mapping whose ["old"] field contains "Promoted" is in the list
    returned by [get_list_posts_sorted_without_promoted], whatever the
    ordering list: every mapping returned is one of the input on which the
    test of line 231 came out negative. *)
Theorem promoted_never_returned (l_urns : list string)
    (l_posts sorted remaining : list (gmap string pyval))
    (post : gmap string pyval) :
  get_list_posts_sorted_without_promoted l_urns l_posts = Ok (sorted, remaining) →
  promoted post = Ok true →
  (post ∉ sorted) ∧
  Forall (λ p, p ∈ l_posts ∧ promoted p = Ok false) sorted.
Proof.
  intros Hrun Hpromoted. pose proof (sorted_posts_spec _ _ _ _ Hrun) as Hall.
  split; [|done]. intros Hin. rewrite Forall_forall in Hall.
  destruct (Hall post Hin) as [_ Hnot]. congruence.
Qed.

Lemma promoted_never_returned_witness :
  sample_post "Promoted" "x/B" ∉ [sample_post "1d" "x/A"].
Proof.
  apply (promoted_never_returned ["B"; "A"]
           [sample_post "1d" "x/A"; sample_post "Promoted" "x/B"]
           [sample_post "1d" "x/A"] [] (sample_post "Promoted" "x/B"));
    vm_compute; reflexivity.
Defined.

(** C9 (amended).  A URN of the ordering list is skipped when, at the time
    it is reached, every remaining mapping has a ["url"] field and none of
    them contains it: its iteration does not raise and leaves the returned
    list and the working list as they were, so the call gives what it gives
    on the ordering list without that URN. *)
Theorem unmatched_urn_skipped (before after : list string) (urn : string)
    (l_posts sorted remaining : list (gmap string pyval)) :
  get_list_posts_sorted_without_promoted before l_posts = Ok (sorted, remaining) →
  Forall (λ post, url_contains urn post = Ok false) remaining →
  place_urn urn (sorted, remaining) = Ok (sorted, remaining) ∧
  get_list_posts_sorted_without_promoted (before ++ urn :: after) l_posts
  = get_list_posts_sorted_without_promoted (before ++ after) l_posts.
Proof.
  intros Hrun Hno. pose proof (place_urn_skip urn sorted remaining Hno) as Hskip.
  split; [done|]. revert Hrun. unfold get_list_posts_sorted_without_promoted.
  destruct (filter_not_in "Promoted" "old" l_posts) as [kept|]; [|done].
  cbn [mbind res_bind]. intros Hrun. rewrite !place_urns_app, Hrun.
  cbn [mbind res_bind place_urns]. by rewrite Hskip.
Qed.

Lemma unmatched_urn_skipped_witness :
  get_list_posts_sorted_without_promoted ["A"; "Z"; "B"]
    [sample_post "1d" "x/B"; sample_post "2d" "x/A"]
  = get_list_posts_sorted_without_promoted ["A"; "B"]
    [sample_post "1d" "x/B"; sample_post "2d" "x/A"].
Proof.
  apply (unmatched_urn_skipped ["A"] ["B"] "Z"
           [sample_post "1d" "x/B"; sample_post "2d" "x/A"]
           [sample_post "2d" "x/A"] [sample_post "1d" "x/B"]).
  - vm_compute; reflexivity.
  - repeat constructor.
Defined.

(** C9 as stated fails: the URN below matches no mapping's URL field, there
    is none, and the call raises at [post["url"]]. *)
Lemma unmatched_urn_raises :
  (∀ post (u : pyval), post ∈ [sample_post_no_url] →
     post !! "url" = Some u → py_in "A" u = Ok false) ∧
  get_list_posts_sorted_without_promoted ["A"] [sample_post_no_url]
  = Raise KeyError.
Proof.
  split; [|vm_compute; reflexivity].
  intros post u ->%list_elem_of_singleton. vm_compute. discriminate.
Qed.


(** * Further properties *)

(** ** Splitting *)

Section Splitting.

#[local] Arguments String.append !_ _ /.

Lemma split_nonempty (c : ascii) (s : string) : Str.split c s ≠ [].
Proof.
  induction s as [|x s IH]; simpl; [done|].
  destruct (Ascii.eqb x c); [done|]. by destruct (Str.split c s).
Qed.

Lemma split_head (c : ascii) (s : string) :
  ∃ pieces, Str.split c s = before_char c s :: pieces.
Proof.
  induction s as [|x s (pieces & IH)]; simpl; [by exists []|].
  destruct (Ascii.eqb x c); [by eexists|]. rewrite IH. by eexists.
Qed.

Lemma split_free (c : ascii) (s : string) :
  count_char c s = 0%nat → Str.split c s = [s].
Proof.
  induction s as [|x s IH]; simpl; [done|].
  destruct (Ascii.eqb x c); [done|]. intros H. by rewrite IH.
Qed.

Lemma split_app (c : ascii) (x y : string) :
  count_char c x = 0%nat → Str.split c (x +:+ String c y) = x :: Str.split c y.
Proof.
  induction x as [|a x IH]; simpl.
  - by rewrite Ascii.eqb_refl.
  - destruct (Ascii.eqb a c); [done|]. intros H. by rewrite IH.
Qed.

Lemma split_app_sep (c : ascii) (x y : string) :
  count_char c x = 0%nat →
  Str.split c (x +:+ String c "" +:+ y) = x :: Str.split c y.
Proof. apply split_app. Qed.

Lemma length_split (c : ascii) (s : string) :
  length (Str.split c s) = S (count_char c s).
Proof.
  induction s as [|x s IH]; simpl; [done|].
  destruct (Ascii.eqb x c); simpl; [by rewrite IH|].
  destruct (Str.split c s); simpl in *; lia.
Qed.

Lemma split_pieces_free (c : ascii) (s : string) :
  Forall (λ piece, count_char c piece = 0%nat) (Str.split c s).
Proof.
  induction s as [|x s IH]; simpl; [by repeat constructor|].
  destruct (Ascii.eqb x c) eqn:E; [by constructor|].
  destruct (Str.split c s) as [|p ps]; [by repeat constructor; simpl; rewrite E|].
  inversion_clear IH. constructor; [|done]. simpl. by rewrite E.
Qed.

Lemma before_char_free (c : ascii) (s : string) :
  count_char c (before_char c s) = 0%nat.
Proof.
  induction s as [|x s IH]; simpl; [done|].
  destruct (Ascii.eqb x c) eqn:E; simpl; [done|]. by rewrite E.
Qed.

Lemma before_char_app (c : ascii) (x y : string) :
  count_char c x = 0%nat → before_char c (x +:+ y) = x +:+ before_char c y.
Proof.
  induction x as [|a x IH]; simpl; [done|].
  destruct (Ascii.eqb a c); [done|]. intros H. by rewrite IH.
Qed.

Lemma before_char_id (c : ascii) (x : string) :
  count_char c x = 0%nat → before_char c x = x.
Proof.
  induction x as [|a x IH]; simpl; [done|].
  destruct (Ascii.eqb a c); [done|]. intros H. by rewrite IH.
Qed.

Lemma before_char_stop (c : ascii) (y : string) : before_char c (String c y) = "".
Proof. simpl. by rewrite Ascii.eqb_refl. Qed.

Lemma count_char_app (c : ascii) (x y : string) :
  count_char c (x +:+ y) = (count_char c x + count_char c y)%nat.
Proof. induction x as [|a x IH]; simpl; [done|]. rewrite IH. lia. Qed.

Lemma nth_item_ok {A} (l : list A) (i : nat) (x : A) :
  nth_item l i = Ok x ↔ l !! i = Some x.
Proof. unfold nth_item. destruct (l !! i); split; congruence. Qed.

Lemma nth_item_raise {A} (l : list A) (i : nat) (e : exn) :
  nth_item l i = Raise e ↔ (length l ≤ i)%nat ∧ e = IndexError.
Proof.
  unfold nth_item. destruct (l !! i) eqn:E.
  - apply lookup_lt_Some in E. split; [done | lia].
  - apply lookup_ge_None in E. split; [intros [= <-]; by split | by intros [_ ->]].
Qed.

(** The closed form of [get_urn_from_raw_update]. *)
Lemma get_urn_from_raw_update_closed (pre r : string) :
  count_char "(" pre = 0%nat →
  get_urn_from_raw_update (pre +:+ String "(" r)
  = Ok (before_char "," (before_char "(" r)).
Proof.
  intros Hpre. unfold get_urn_from_raw_update. rewrite (split_app _ _ _ Hpre).
  destruct (split_head "(" r) as [ps ->]. cbn [nth_item lookup list_lookup mbind res_bind].
  by destruct (split_head "," (before_char "(" r)) as [qs ->].
Qed.

(** A string with an occurrence of [c] cut at the first one. *)
Lemma count_char_cut (c : ascii) (s : string) :
  (0 < count_char c s)%nat →
  ∃ pre r, s = pre +:+ String c r ∧ count_char c pre = 0%nat.
Proof.
  induction s as [|x s IH]; simpl; [lia|].
  destruct (Ascii.eqb_spec x c) as [->|Hne].
  - intros _. by exists "", s.
  - intros (pre & r & -> & Hpre)%IH. exists (String x pre), r. split; [done|].
    simpl. destruct (Ascii.eqb_spec x c); [done | by rewrite Hpre].
Qed.

End Splitting.

(** ** URN helpers *)

(** X1.  On [a:b:c:id], and on [a:b:c:id:rest], where the four pieces have
    no colon, [get_id_from_urn] returns [id]. *)
Theorem get_id_from_urn_fourth (a b c id : string) :
  count_char ":" a = 0%nat → count_char ":" b = 0%nat →
  count_char ":" c = 0%nat → count_char ":" id = 0%nat →
  get_id_from_urn (a +:+ ":" +:+ b +:+ ":" +:+ c +:+ ":" +:+ id) = Ok id ∧
  ∀ rest, get_id_from_urn
            (a +:+ ":" +:+ b +:+ ":" +:+ c +:+ ":" +:+ id +:+ ":" +:+ rest)
          = Ok id.
Proof.
  intros Ha Hb Hc Hid. unfold get_id_from_urn. split.
  - rewrite !split_app_sep by done. by rewrite (split_free _ _ Hid).
  - intros rest. by rewrite !split_app_sep.
Qed.

Lemma get_id_from_urn_fourth_witness :
  get_id_from_urn "urn:li:fs_miniProfile:ACoAAB" = Ok "ACoAAB".
Proof.
  apply (get_id_from_urn_fourth "urn" "li" "fs_miniProfile" "ACoAAB");
    reflexivity.
Defined.

(** X2.  [get_id_from_urn] raises [IndexError] exactly on a string with
    fewer than three colons; what it returns otherwise has no colon. *)
Theorem get_id_from_urn_defined (urn : string) :
  (get_id_from_urn urn = Raise IndexError ↔ (count_char ":" urn < 3)%nat) ∧
  (∀ id, get_id_from_urn urn = Ok id → count_char ":" id = 0%nat) ∧
  ((3 ≤ count_char ":" urn)%nat → ∃ id, get_id_from_urn urn = Ok id).
Proof.
  unfold get_id_from_urn. pose proof (length_split ":" urn) as Hlen.
  split; [|split].
  - rewrite nth_item_raise. split; [intros [? _]; lia | intros ?; split; [lia | done]].
  - intros id Hid%nth_item_ok. pose proof (split_pieces_free ":" urn) as Hall.
    rewrite Forall_forall in Hall. apply Hall. by eapply list_elem_of_lookup_2.
  - intros H3. destruct (Str.split ":" urn !! 3%nat) as [id|] eqn:E.
    + exists id. by apply nth_item_ok.
    + apply lookup_ge_None in E. lia.
Qed.

(** X3.  [get_urn_from_raw_update] returns the text that follows the first
    opening parenthesis, up to the next comma or opening parenthesis or to
    the end of the string. *)
Theorem get_urn_from_raw_update_between (pre urn tail : string) :
  count_char "(" pre = 0%nat →
  count_char "(" urn = 0%nat → count_char "," urn = 0%nat →
  tail = "" ∨ (∃ t, tail = String "," t) ∨ (∃ t, tail = String "(" t) →
  get_urn_from_raw_update (pre +:+ "(" +:+ urn +:+ tail) = Ok urn.
Proof.
  intros Hpre Hu1 Hu2 Htail.
  change (pre +:+ "(" +:+ urn +:+ tail) with (pre +:+ String "(" (urn +:+ tail)).
  rewrite (get_urn_from_raw_update_closed _ _ Hpre). f_equal.
  rewrite (before_char_app _ _ _ Hu1).
  destruct Htail as [->|[[t ->]|[t ->]]].
  - change (before_char "(" "") with "". rewrite app_empty_r.
    by apply before_char_id.
  - rewrite (before_char_app _ _ _ Hu2).
    change (before_char "(" (String "," t)) with (String "," (before_char "(" t)).
    by rewrite before_char_stop, app_empty_r.
  - rewrite before_char_stop, app_empty_r. by apply before_char_id.
Qed.

Lemma get_urn_from_raw_update_between_witness :
  get_urn_from_raw_update
    "urn:li:fs_updateV2:(urn:li:activity:12,GROUP_FEED,EMPTY,DEFAULT,false)"
  = Ok "urn:li:activity:12".
Proof.
  apply (get_urn_from_raw_update_between "urn:li:fs_updateV2:"
           "urn:li:activity:12" ",GROUP_FEED,EMPTY,DEFAULT,false)");
    [reflexivity .. |]. right. left. by eexists.
Defined.

Lemma get_urn_from_raw_update_some (raw_string : string) :
  (0 < count_char "(" raw_string)%nat →
  ∃ urn, get_urn_from_raw_update raw_string = Ok urn ∧
         count_char "," urn = 0%nat ∧ count_char "(" urn = 0%nat.
Proof.
  intros (pre & r & -> & Hpre)%count_char_cut.
  eexists. split; [by apply get_urn_from_raw_update_closed|].
  split; [apply before_char_free|].
  assert (Hsub : ∀ c x, count_char "(" x = 0%nat →
                        count_char "(" (before_char c x) = 0%nat).
  { intros c x. induction x as [|a x IH]; simpl; [done|].
    destruct (Ascii.eqb a "(") eqn:E1; [done|].
    destruct (Ascii.eqb a c); simpl; [done|]. rewrite E1. auto. }
  apply Hsub, before_char_free.
Qed.

Lemma get_urn_from_raw_update_none (raw_string : string) :
  count_char "(" raw_string = 0%nat →
  get_urn_from_raw_update raw_string = Raise IndexError.
Proof.
  intros H0. unfold get_urn_from_raw_update. by rewrite (split_free _ _ H0).
Qed.

(** X4.  [get_urn_from_raw_update] raises [IndexError] exactly on a string
    with no opening parenthesis (so on the first example of its docstring,
    [urn:li:fs_miniProfile:<id>]); what it returns otherwise has neither a
    comma nor an opening parenthesis. *)
Theorem get_urn_from_raw_update_defined (raw_string : string) :
  (get_urn_from_raw_update raw_string = Raise IndexError
   ↔ count_char "(" raw_string = 0%nat) ∧
  ((0 < count_char "(" raw_string)%nat →
   ∃ urn, get_urn_from_raw_update raw_string = Ok urn ∧
          count_char "," urn = 0%nat ∧ count_char "(" urn = 0%nat).
Proof.
  split; [|apply get_urn_from_raw_update_some]. split.
  - intros Hraise. destruct (count_char "(" raw_string) eqn:E; [done|].
    destruct (get_urn_from_raw_update_some raw_string) as (urn & Hurn & _); [lia|].
    congruence.
  - apply get_urn_from_raw_update_none.
Qed.

Lemma get_urn_from_raw_update_of_raise (v : pyval) (e : exn) :
  get_urn_from_raw_update_of v = Raise e → e = IndexError ∨ e = AttributeError.
Proof.
  destruct v as [| | | |s| |]; cbn [get_urn_from_raw_update_of];
    try (intros [= <-]; by right).
  unfold get_urn_from_raw_update.
  destruct (nth_item (Str.split "(" s) 1) as [inner|e1] eqn:E1; cbn [mbind res_bind].
  - intros [_ ->]%nth_item_raise. by left.
  - apply nth_item_raise in E1 as [_ ->]. intros [= <-]. by left.
Qed.

Lemma parse_raw_urns_from_spec (l_urns : list string) (l_raw_urns : list pyval)
    (out : list string) :
  parse_raw_urns_from l_urns l_raw_urns = Ok out ↔
  ∃ new, out = l_urns ++ new ∧
    Forall2 (λ i urn, get_urn_from_raw_update_of i = Ok urn) l_raw_urns new.
Proof.
  revert l_urns. induction l_raw_urns as [|i rest IH]; intros l_urns;
    cbn [parse_raw_urns_from].
  - split.
    + intros [= <-]. exists []. by rewrite app_nil_r.
    + intros (new & -> & ->%Forall2_nil_inv_l). by rewrite app_nil_r.
  - destruct (get_urn_from_raw_update_of i) as [urn|e] eqn:E; cbn [mbind res_bind].
    + rewrite IH. split.
      * intros (new & -> & Hnew). exists (urn :: new).
        split; [by rewrite <- app_assoc | by constructor].
      * intros (new & -> & Hnew). apply Forall2_cons_inv_l in Hnew
          as (urn' & new' & Hurn & Hnew' & ->).
        exists new'. split; [|done]. rewrite <- app_assoc. simpl. congruence.
    + split; [done|]. intros (new & _ & Hnew).
      apply Forall2_cons_inv_l in Hnew as (urn' & new' & Hurn & _). congruence.
Qed.

Lemma parse_raw_urns_from_raise (l_urns : list string) (l_raw_urns : list pyval)
    (e : exn) :
  parse_raw_urns_from l_urns l_raw_urns = Raise e →
  ∃ i, i ∈ l_raw_urns ∧ get_urn_from_raw_update_of i = Raise e.
Proof.
  revert l_urns. induction l_raw_urns as [|i rest IH]; intros l_urns;
    cbn [parse_raw_urns_from]; [done|].
  destruct (get_urn_from_raw_update_of i) as [urn|e'] eqn:E; cbn [mbind res_bind].
  - intros (j & Hj & Hraise)%IH. exists j. split; [by right | done].
  - intros [= <-]. exists i. split; [by left | done].
Qed.

(** X5.  [parse_list_raw_urns] returns a list exactly when every raw update
    is a string with an opening parenthesis; the list then has one URN per
    raw update, in order, each the URN [get_urn_from_raw_update] extracts.
    Otherwise it raises the [IndexError] or [AttributeError] of the first
    raw update that has none. *)
Theorem parse_list_raw_urns_pointwise (l_raw_urns : list pyval) :
  (∀ out, parse_list_raw_urns l_raw_urns = Ok out ↔
     Forall2 (λ i urn, ∃ raw, i = PStr raw ∧ get_urn_from_raw_update raw = Ok urn)
       l_raw_urns out) ∧
  (∀ e, parse_list_raw_urns l_raw_urns = Raise e →
     (e = IndexError ∨ e = AttributeError) ∧
     ∃ i, i ∈ l_raw_urns ∧ get_urn_from_raw_update_of i = Raise e) ∧
  (Forall (λ i, ∃ raw, i = PStr raw ∧ (0 < count_char "(" raw)%nat) l_raw_urns →
   ∃ out, parse_list_raw_urns l_raw_urns = Ok out ∧ length out = length l_raw_urns).
Proof.
  assert (Hiff : ∀ out, parse_list_raw_urns l_raw_urns = Ok out ↔
     Forall2 (λ i urn, ∃ raw, i = PStr raw ∧ get_urn_from_raw_update raw = Ok urn)
       l_raw_urns out).
  { intros out. unfold parse_list_raw_urns. rewrite parse_raw_urns_from_spec.
    split.
    - intros (new & -> & H). simpl. eapply Forall2_impl; [exact H|].
      intros [| | | |s| |] urn; cbn [get_urn_from_raw_update_of]; try done. eauto.
    - intros H. exists out. split; [done|]. eapply Forall2_impl; [exact H|].
      by intros i urn (raw & -> & ?). }
  split; [exact Hiff|]. split.
  - intros e (i & Hi & Hraise)%parse_raw_urns_from_raise.
    split; [by eapply get_urn_from_raw_update_of_raise | by exists i].
  - intros Hall.
    assert (Hex : ∃ out, Forall2 (λ i urn, ∃ raw, i = PStr raw ∧
                           get_urn_from_raw_update raw = Ok urn) l_raw_urns out).
    { clear Hiff. induction Hall as [|i rest Hi _ IH]; [by exists []|].
      destruct Hi as (raw & -> & Hpos). destruct IH as (out & IH).
      destruct (get_urn_from_raw_update_some raw Hpos) as (urn & Hurn & _).
      exists (urn :: out). constructor; [by exists raw | done]. }
    destruct Hex as (out & Hout). exists out. split; [by apply Hiff|].
    symmetry. by eapply Forall2_length.
Qed.

Lemma parse_list_raw_urns_pointwise_witness :
  parse_list_raw_urns [PStr "urn:li:fs_updateV2:(urn:li:activity:12,FEED)";
                       PStr "x(y"]
  = Ok ["urn:li:activity:12"; "y"].
Proof.
  apply (proj1 (parse_list_raw_urns_pointwise _)).
  repeat constructor; eexists; (split; [reflexivity|]); vm_compute; reflexivity.
Defined.

(** ** Field extractors of the feed assembler *)

Lemma getitem_raise (v : pyval) (k : string) (e : exn) :
  getitem v k = Raise e → e = KeyError ∨ e = TypeError.
Proof.
  destruct v; cbn [getitem]; try (intros [= <-]; by right).
  destruct (_ !! k); [done | intros [= <-]; by left].
Qed.

Lemma getitem_not_dict (v : pyval) (k : string) :
  is_dict v = false → getitem v k = Raise TypeError.
Proof. by destruct v. Qed.

Lemma getitem_dict (m : gmap string pyval) (k : string) :
  getitem (PDict m) k = match m !! k with Some x => Ok x | None => Raise KeyError end.
Proof. done. Qed.

Lemma except_key_type_ok (r : res pyval) :
  (∀ e, r = Raise e → e = KeyError ∨ e = TypeError) →
  ∃ v, except_key_type r = Ok v.
Proof.
  destruct r as [v|e]; [by exists v|]. intros H.
  destruct (H e eq_refl) as [-> | ->]; by eexists.
Qed.

Lemma path3_raise (d : pyval) (k1 k2 k3 : string) (e : exn) :
  (a ← getitem d k1; b ← getitem a k2; getitem b k3) = Raise e →
  e = KeyError ∨ e = TypeError.
Proof.
  destruct (getitem d k1) as [a|e1] eqn:E1; cbn [mbind res_bind];
    [|intros [= <-]; by eapply getitem_raise].
  destruct (getitem a k2) as [b|e2] eqn:E2; cbn [mbind res_bind];
    [|intros [= <-]; by eapply getitem_raise].
  apply getitem_raise.
Qed.

Lemma path2_raise (d : pyval) (k1 k2 : string) (e : exn) :
  (a ← getitem d k1; getitem a k2) = Raise e → e = KeyError ∨ e = TypeError.
Proof.
  destruct (getitem d k1) as [a|e1] eqn:E1; cbn [mbind res_bind];
    [|intros [= <-]; by eapply getitem_raise].
  apply getitem_raise.
Qed.

Lemma get_update_author_name_ok (d : pyval) :
  ∃ v, get_update_author_name d = Ok v.
Proof. apply except_key_type_ok, path3_raise. Qed.

Lemma get_update_old_ok (d : pyval) : ∃ v, get_update_old d = Ok v.
Proof. apply except_key_type_ok, path3_raise. Qed.

Lemma get_update_url_ok (str_of : pyval → string) (d : pyval) (base_url : string) :
  ∃ s, get_update_url str_of d base_url = Ok (PStr s).
Proof.
  unfold get_update_url.
  destruct (meta ← getitem d "updateMetadata"; getitem meta "urn")
    as [urn|e] eqn:E; [by eexists|].
  destruct (path2_raise _ _ _ _ E) as [-> | ->]; by eexists.
Qed.

(** X6.  [get_update_author_name], [get_update_old] and [get_update_url]
    never raise, whatever the shape of the record: the two [except] clauses
    cover every exception subscripting can raise.  What [get_update_url]
    returns is always a string. *)
Theorem field_extractors_return (str_of : pyval → string) (d : pyval)
    (base_url : string) :
  (∃ v, get_update_author_name d = Ok v) ∧
  (∃ v, get_update_old d = Ok v) ∧
  (∃ s, get_update_url str_of d base_url = Ok (PStr s)).
Proof.
  split; [apply get_update_author_name_ok|].
  split; [apply get_update_old_ok | apply get_update_url_ok].
Qed.

Lemma actor_missing (m : gmap string pyval) (base_url : string) :
  m !! "actor" = None →
  get_update_author_name (PDict m) = Ok (PStr "") ∧
  get_update_old (PDict m) = Ok (PStr "") ∧
  get_update_author_profile (PDict m) base_url = Ok (PStr "").
Proof.
  intros H. unfold get_update_author_name, get_update_old, get_update_author_profile.
  by rewrite getitem_dict, H.
Qed.

Lemma actor_malformed (m : gmap string pyval) (actor : pyval) (base_url : string) :
  m !! "actor" = Some actor → is_dict actor = false →
  get_update_author_name (PDict m) = Ok (PStr "None") ∧
  get_update_old (PDict m) = Ok (PStr "None") ∧
  get_update_author_profile (PDict m) base_url = Ok (PStr "None").
Proof.
  intros H Hnd. unfold get_update_author_name, get_update_old, get_update_author_profile.
  rewrite getitem_dict, H. cbn [mbind res_bind].
  by rewrite !(getitem_not_dict actor _ Hnd).
Qed.

(** X7.  An absent [actor] and an [actor] of the wrong shape are told apart:
    the author name, the age and the author profile are the empty string
    when the key is missing, and the four-letter string "None", which is
    not empty, when [actor] is there but is no object (for example null). *)
Theorem actor_absent_or_malformed (m : gmap string pyval) (base_url : string) :
  (m !! "actor" = None →
     get_update_author_name (PDict m) = Ok (PStr "") ∧
     get_update_old (PDict m) = Ok (PStr "") ∧
     get_update_author_profile (PDict m) base_url = Ok (PStr "")) ∧
  (∀ actor, m !! "actor" = Some actor → is_dict actor = false →
     get_update_author_name (PDict m) = Ok (PStr "None") ∧
     get_update_old (PDict m) = Ok (PStr "None") ∧
     get_update_author_profile (PDict m) base_url = Ok (PStr "None") ∧
     truthy (PStr "None") = true).
Proof.
  split; [apply actor_missing|]. intros actor H Hnd.
  destruct (actor_malformed m actor base_url H Hnd) as (? & ? & ?). done.
Qed.

Lemma get_urn_from_raw_update_of_cases (r : pyval) (e : exn) :
  get_urn_from_raw_update_of r = Raise e ↔
  (∃ s, r = PStr s ∧ count_char "(" s = 0%nat ∧ e = IndexError) ∨
  (is_str r = false ∧ e = AttributeError).
Proof.
  destruct r as [| | | |s| |]; cbn [get_urn_from_raw_update_of is_str];
    try (split; [intros [= <-]; by right | by intros [(? & ? & _)|[_ ->]]]).
  split.
  - intros H. left. exists s. split; [done|].
    destruct (count_char "(" s) eqn:E.
    + rewrite (get_urn_from_raw_update_none s E) in H. split; congruence.
    + destruct (get_urn_from_raw_update_some s) as (u & Hu & _); [lia|]. congruence.
  - intros [(s' & [= <-] & H0 & ->)|[? _]]; [|done].
    by apply get_urn_from_raw_update_none.
Qed.

(** X8.  [get_update_content] raises in exactly one situation: the
    commentary lookup meets a value that is no object (a [TypeError], caught)
    and the record has a ["*resharedUpdate"] that is not a string with an
    opening parenthesis.  The exception, [IndexError] for a string and
    [AttributeError] for another value, comes from
    [get_urn_from_raw_update], which the inner [try] does not cover. *)
Theorem get_update_content_raises (d : pyval) (base_url : string) (e : exn) :
  get_update_content d base_url = Raise e ↔
  commentary_text d = Raise TypeError ∧
  ∃ r, getitem d "*resharedUpdate" = Ok r ∧
    ((∃ s, r = PStr s ∧ count_char "(" s = 0%nat ∧ e = IndexError) ∨
     (is_str r = false ∧ e = AttributeError)).
Proof.
  unfold get_update_content. fold (commentary_text d).
  destruct (commentary_text d) as [v|e0] eqn:Ec.
  { split; [done | by intros [? _]]. }
  destruct (path3_raise _ _ _ _ _ Ec) as [-> | ->].
  { split; [done | by intros [? _]]. }
  destruct (getitem d "*resharedUpdate") as [r|e1] eqn:Er; cbn [mbind res_bind].
  - destruct (get_urn_from_raw_update_of r) as [urn|e2] eqn:Eu; cbn [mbind res_bind].
    + split; [done|]. intros (_ & r' & [= <-] & H).
      apply get_urn_from_raw_update_of_cases in H. congruence.
    + destruct (get_urn_from_raw_update_of_raise r e2 Eu) as [-> | ->]; split.
      1,3: intros [= <-]; split; [done|]; exists r; split; [done|];
        by apply get_urn_from_raw_update_of_cases.
      all: intros (_ & r' & [= <-] & H);
        apply get_urn_from_raw_update_of_cases in H; congruence.
  - destruct (getitem_raise _ _ _ Er) as [-> | ->];
      (split; [done | by intros (_ & r' & ? & _)]).
Qed.

(** X9.  When the commentary lookup meets a value that is no object,
    [get_update_content] falls back on ["*resharedUpdate"]: a raw update
    string gives the link to the update it names, and a record without that
    key gives "IMAGE". *)
Theorem get_update_content_fallback (m : gmap string pyval) (base_url : string) :
  commentary_text (PDict m) = Raise TypeError →
  (m !! "*resharedUpdate" = None →
   get_update_content (PDict m) base_url = Ok (PStr "IMAGE")) ∧
  (∀ raw urn, m !! "*resharedUpdate" = Some (PStr raw) →
     get_urn_from_raw_update raw = Ok urn →
     get_update_content (PDict m) base_url
     = Ok (PStr (base_url +:+ "/feed/update/" +:+ urn))).
Proof.
  intros Hc. unfold get_update_content. fold (commentary_text (PDict m)).
  rewrite Hc, getitem_dict. split.
  - by intros ->.
  - intros raw urn -> Hurn. cbn [mbind res_bind get_urn_from_raw_update_of].
    by rewrite Hurn.
Qed.

Lemma get_update_content_fallback_witness :
  get_update_content (PDict sample_reshared_only) "https://www.linkedin.com"
  = Ok (PStr "https://www.linkedin.com/feed/update/urn:li:activity:12").
Proof.
  assert (H : commentary_text (PDict sample_reshared_only) = Raise TypeError)
    by (vm_compute; reflexivity).
  apply (proj2 (get_update_content_fallback sample_reshared_only
                  "https://www.linkedin.com" H)
           "urn:li:fs_updateV2:(urn:li:activity:12,FEED)");
    vm_compute; reflexivity.
Defined.

Lemma last_split (c : ascii) (s : string) :
  last (Str.split c s) = Some (after_last c s).
Proof.
  induction s as [|x s IH]; [done|].
  cbn [Str.split after_last]. cbn [count_char].
  destruct (Ascii.eqb x c) eqn:E.
  - cbn [Nat.add Nat.eqb]. rewrite last_cons, IH. done.
  - cbn [Nat.add]. destruct (Nat.eqb_spec (count_char c s) 0) as [H0|Hpos].
    + by rewrite (split_free _ _ H0).
    + pose proof (length_split c s) as Hlen.
      destruct (Str.split c s) as [|h [|h' t]] eqn:Es; simpl in Hlen; try lia.
      by rewrite last_cons_cons in IH |- *.
Qed.

Lemma after_last_free (c : ascii) (s : string) :
  count_char c (after_last c s) = 0%nat.
Proof.
  induction s as [|x s IH]; [done|]. cbn [after_last].
  by destruct (Nat.eqb_spec (count_char c (String x s)) 0).
Qed.

Lemma after_last_suffix (c : ascii) (s : string) :
  ∃ pre, s = pre +:+ after_last c s.
Proof.
  induction s as [|x s (pre & IH)]; [by exists ""|]. cbn [after_last].
  destruct (Nat.eqb (count_char c (String x s)) 0); [by exists ""|].
  exists (String x pre).
  change (String x s = String x (pre +:+ after_last c s)). by rewrite <- IH.
Qed.

(** X10.  For an actor whose identifier is a string, the author profile is
    the company page when the identifier contains "company", else the
    member page when it contains "member", both ending in the text after the
    identifier's last colon; with neither word the function falls off its
    end and returns [None].  An identifier that is no string makes it raise
    [AttributeError], since the [else] clause is outside the [try]. *)
Theorem get_update_author_profile_of_urn (m actor : gmap string pyval)
    (urn : pyval) (base_url : string) :
  m !! "actor" = Some (PDict actor) → actor !! "urn" = Some urn →
  (∀ u, urn = PStr u →
     get_update_author_profile (PDict m) base_url
     = Ok (if Str.contains "company" u
           then PStr (base_url +:+ "/company/" +:+ after_last ":" u)
           else if Str.contains "member" u
                then PStr (base_url +:+ "/in/" +:+ after_last ":" u)
                else PNone) ∧
     count_char ":" (after_last ":" u) = 0%nat ∧
     ∃ pre, u = pre +:+ after_last ":" u) ∧
  (is_str urn = false →
     get_update_author_profile (PDict m) base_url = Raise AttributeError).
Proof.
  intros Hactor Hurn. unfold get_update_author_profile.
  rewrite getitem_dict, Hactor. cbn [mbind res_bind]. rewrite getitem_dict, Hurn.
  split.
  - intros u ->. split; [|split; [apply after_last_free | apply after_last_suffix]].
    cbn [author_profile_of_urn]. unfold last_item. rewrite last_split.
    cbn [mbind res_bind]. destruct (Str.contains "company" u); [done|].
    by destruct (Str.contains "member" u).
  - by destruct urn.
Qed.

Lemma get_update_author_profile_of_urn_witness :
  get_update_author_profile
    (PDict {["actor" := PDict {["urn" := PStr "urn:li:company:1337"]}]})
    "https://www.linkedin.com"
  = Ok (PStr "https://www.linkedin.com/company/1337").
Proof.
  destruct (get_update_author_profile_of_urn
              {["actor" := PDict {["urn" := PStr "urn:li:company:1337"]}]}
              {["urn" := PStr "urn:li:company:1337"]}
              (PStr "urn:li:company:1337") "https://www.linkedin.com")
    as [H _]; [apply lookup_singleton_eq ..|].
  apply (H "urn:li:company:1337" eq_refl).
Defined.

(** ** The post-field accumulator *)

Section Accumulator.

Implicit Types (l l_posts : list (gmap string pyval)) (cur m : gmap string pyval).
Implicit Types (di i : pyval) (k : string) (v : pyval).

Lemma append_field_nil di k v :
  append_update_post_field_to_posts_list di [] k v = [{[k := v]}].
Proof. done. Qed.

Lemma append_field_fill di l cur k v :
  cur !! k = None →
  append_update_post_field_to_posts_list di (l ++ [cur]) k v
  = l ++ [<[k := v]> cur].
Proof.
  intros H. unfold append_update_post_field_to_posts_list.
  rewrite last_snoc, H, length_app. cbn [length].
  replace (length l + 1 - 1)%nat with (length l + 0)%nat by lia.
  by rewrite insert_app_r.
Qed.

Lemma append_field_new di l cur k v :
  is_Some (cur !! k) →
  append_update_post_field_to_posts_list di (l ++ [cur]) k v
  = l ++ [cur; {[k := v]}].
Proof.
  intros [x H]. unfold append_update_post_field_to_posts_list.
  rewrite last_snoc, H. by rewrite <- app_assoc.
Qed.

(** X11.  [append_update_post_field_to_posts_list] never loses or overwrites
    a field: every mapping of the list keeps all its bindings.  The new value
    ends up under its key in the last mapping, and the list grows, by one
    mapping, exactly when it was empty or its last mapping already had the
    key. *)
Theorem append_update_post_field_keeps di l k v :
  let l' := append_update_post_field_to_posts_list di l k v in
  (∃ cur, last l' = Some cur ∧ cur !! k = Some v) ∧
  (∀ (n : nat) m, l !! n = Some m → ∃ m', l' !! n = Some m' ∧ m ⊆ m') ∧
  (length l' = length l ∨ length l' = S (length l)) ∧
  (length l' = S (length l)
   ↔ l = [] ∨ ∃ cur, last l = Some cur ∧ is_Some (cur !! k)).
Proof.
  intros l'. subst l'. destruct (last l) as [cur|] eqn:Hlast.
  - apply last_Some in Hlast as [l0 ->]. destruct (cur !! k) as [x|] eqn:Hk.
    + rewrite (append_field_new di l0 cur k v) by eauto.
      split; [|split; [|split]].
      * exists {[k := v]}. split; [|apply lookup_singleton_eq].
        change (l0 ++ [cur; {[k := v]}]) with (l0 ++ [cur] ++ [{[k := v]}]).
        rewrite app_assoc. apply last_snoc.
      * intros n m Hn. exists m. split; [|done].
        change (l0 ++ [cur; {[k := v]}]) with (l0 ++ [cur] ++ [{[k := v]}]).
        rewrite app_assoc. by apply lookup_app_l_Some.
      * right. rewrite !length_app. simpl. lia.
      * split; [|rewrite !length_app; simpl; lia].
        intros _. right. exists cur. eauto.
    + rewrite (append_field_fill di l0 cur k v Hk).
      split; [|split; [|split]].
      * exists (<[k := v]> cur). by rewrite last_snoc, lookup_insert_eq.
      * intros n m Hn. apply lookup_app_Some in Hn as [Hn|[Hlen Hn]].
        -- exists m. split; [by apply lookup_app_l_Some | done].
        -- destruct (n - length l0)%nat as [|j] eqn:Ej; [|done].
           injection Hn as <-. exists (<[k := v]> cur).
           split; [|by apply insert_subseteq].
           rewrite lookup_app_r by lia. by rewrite Ej.
      * left. by rewrite !length_app.
      * rewrite !length_app. simpl. split; [lia|].
        intros [Hnil|(cur' & Hl & Hsome)].
        -- by destruct l0.
        -- injection Hl as <-. rewrite Hk in Hsome. by destruct Hsome.
  - apply last_None in Hlast as ->. rewrite append_field_nil.
    split; [|split; [|split]].
    + exists {[k := v]}. split; [done | apply lookup_singleton_eq].
    + by intros n m Hn.
    + by right.
    + split; [by left | done].
Qed.

End Accumulator.

(** ** [parse_list_raw_posts] *)

Section ParsePosts.

Implicit Types (l l_posts : list (gmap string pyval)) (cur m : gmap string pyval).
Implicit Types (di i : pyval) (k : string) (v : pyval).
Implicit Types (str_of : pyval → string) (base : string).

Lemma singleton_wf k v :
  k ∈ post_fields → truthy v = true →
  (k = "url" → is_str v = true) → (k = "author_profile" → is_str v = true) →
  post_wf {[k := v]}.
Proof.
  intros Hk Hv Hurl Hprof. split; [apply map_non_empty_singleton|].
  split; [|split].
  - intros k' v' [<- <-]%lookup_singleton_Some. done.
  - intros v' [-> <-]%lookup_singleton_Some. by apply Hurl.
  - intros v' [-> <-]%lookup_singleton_Some. by apply Hprof.
Qed.

Lemma insert_wf cur k v :
  post_wf cur → k ∈ post_fields → truthy v = true →
  (k = "url" → is_str v = true) → (k = "author_profile" → is_str v = true) →
  post_wf (<[k := v]> cur).
Proof.
  intros (_ & Hall & Hu & Hp) Hk Hv Hurl Hprof.
  split; [apply insert_non_empty|]. split; [|split].
  - intros k' v' [[<- <-]|[_ H]]%lookup_insert_Some; [done | by apply Hall].
  - intros v' [[-> <-]|[_ H]]%lookup_insert_Some; [by apply Hurl | by apply Hu].
  - intros v' [[-> <-]|[_ H]]%lookup_insert_Some; [by apply Hprof | by apply Hp].
Qed.

Lemma add_field_wf i l k v :
  Forall post_wf l → k ∈ post_fields →
  (truthy v = true → k = "url" → is_str v = true) →
  (truthy v = true → k = "author_profile" → is_str v = true) →
  Forall post_wf (add_field i l k v).
Proof.
  intros Hl Hk Hurl Hprof. unfold add_field.
  destruct (truthy v) eqn:Hv; [|done].
  destruct (last l) as [cur|] eqn:Hlast.
  - apply last_Some in Hlast as [l0 ->].
    apply Forall_app in Hl as [Hl0 Hcur%Forall_inv].
    destruct (cur !! k) as [x|] eqn:Hx.
    + rewrite append_field_new by eauto. apply Forall_app. split; [done|].
      constructor; [done|]. constructor; [|constructor].
      apply singleton_wf; auto.
    + rewrite append_field_fill by done. apply Forall_app. split; [done|].
      constructor; [|constructor]. apply insert_wf; auto.
  - apply last_None in Hlast as ->. rewrite append_field_nil.
    constructor; [|constructor]. apply singleton_wf; auto.
Qed.

Lemma author_profile_shape di base v :
  get_update_author_profile di base = Ok v → is_str v = true ∨ v = PNone.
Proof.
  unfold get_update_author_profile.
  destruct (actor ← getitem di "actor"; getitem actor "urn") as [urn|e] eqn:E.
  - destruct urn as [| | | |u| |]; cbn [author_profile_of_urn]; try done.
    unfold last_item. rewrite last_split. cbn [mbind res_bind].
    destruct (Str.contains "company" u); [intros [= <-]; by left|].
    destruct (Str.contains "member" u); intros [= <-]; [by left | by right].
  - destruct (path2_raise _ _ _ _ E) as [-> | ->]; intros [= <-]; by left.
Qed.

Lemma author_profile_raise di base e :
  get_update_author_profile di base = Raise e → e = AttributeError.
Proof.
  unfold get_update_author_profile.
  destruct (actor ← getitem di "actor"; getitem actor "urn") as [urn|e0] eqn:E.
  - destruct urn as [| | | |u| |]; cbn [author_profile_of_urn];
      try (by intros [= <-]).
    unfold last_item. rewrite last_split. cbn [mbind res_bind].
    destruct (Str.contains "company" u); [done|].
    by destruct (Str.contains "member" u).
  - by destruct (path2_raise _ _ _ _ E) as [-> | ->].
Qed.

Lemma content_raise di base e :
  get_update_content di base = Raise e → e = IndexError ∨ e = AttributeError.
Proof.
  unfold get_update_content.
  destruct (commentary ← getitem di "commentary";
            text ← getitem commentary "text"; getitem text "text")
    as [c|e0] eqn:Ec; [done|].
  destruct (path3_raise _ _ _ _ _ Ec) as [-> | ->]; [done|].
  destruct (getitem di "*resharedUpdate") as [r|e1] eqn:Er; cbn [mbind res_bind].
  - destruct (get_urn_from_raw_update_of r) as [urn|e2] eqn:Eu;
      cbn [mbind res_bind]; [done|].
    destruct (get_urn_from_raw_update_of_raise r e2 Eu) as [-> | ->];
      intros [= <-]; auto.
  - by destruct (getitem_raise _ _ _ Er) as [-> | ->].
Qed.

Lemma parse_raw_post_wf str_of base l i l' :
  Forall post_wf l → parse_raw_post str_of base l i = Ok l' → Forall post_wf l'.
Proof.
  intros Hl. unfold parse_raw_post.
  destruct (get_update_author_name i) as [name|] eqn:E1; [|done].
  cbn [mbind res_bind].
  destruct (get_update_author_profile i base) as [prof|] eqn:E2; [|done].
  cbn [mbind res_bind].
  destruct (get_update_old i) as [old|] eqn:E3; [|done].
  cbn [mbind res_bind].
  destruct (get_update_content i base) as [content|] eqn:E4; [|done].
  cbn [mbind res_bind].
  destruct (get_update_url_ok str_of i base) as [u ->].
  cbn [mbind res_bind]. intros [= <-].
  assert (Hin : ∀ k, k ∈ post_fields ↔
    k = "author_name" ∨ k = "author_profile" ∨ k = "old" ∨ k = "content" ∨ k = "url").
  { intros k. unfold post_fields. rewrite !elem_of_cons, elem_of_nil. tauto. }
  repeat apply add_field_wf; try done; try (apply Hin; tauto).
  intros Ht _. destruct (author_profile_shape _ _ _ E2) as [?| ->]; done.
Qed.

Lemma parse_raw_post_raise str_of base l i e :
  parse_raw_post str_of base l i = Raise e → e = IndexError ∨ e = AttributeError.
Proof.
  unfold parse_raw_post.
  destruct (get_update_author_name_ok i) as [name ->]. cbn [mbind res_bind].
  destruct (get_update_author_profile i base) as [prof|e2] eqn:E2;
    cbn [mbind res_bind];
    [|intros [= <-]; right; by eapply author_profile_raise].
  destruct (get_update_old_ok i) as [old ->]. cbn [mbind res_bind].
  destruct (get_update_content i base) as [content|e4] eqn:E4;
    cbn [mbind res_bind];
    [|intros [= <-]; by eapply content_raise].
  by destruct (get_update_url_ok str_of i base) as [u ->].
Qed.

(** X12.  Every mapping [parse_list_raw_posts] returns is non-empty, has
    keys among the five field names and only values that are true in an
    [if], and holds strings under ["url"] and ["author_profile"].  The only
    exceptions it lets out are [IndexError] and [AttributeError], and on the
    empty list it returns the empty list. *)
Theorem parse_list_raw_posts_shape str_of (l_raw_posts : list pyval) base :
  (∀ out, parse_list_raw_posts str_of l_raw_posts base = Ok out →
     Forall post_wf out) ∧
  (∀ e, parse_list_raw_posts str_of l_raw_posts base = Raise e →
     e = IndexError ∨ e = AttributeError) ∧
  parse_list_raw_posts str_of [] base = Ok [].
Proof.
  unfold parse_list_raw_posts.
  assert (Hwf : ∀ l out, Forall post_wf l →
            parse_raw_posts_from str_of base l l_raw_posts = Ok out →
            Forall post_wf out).
  { induction l_raw_posts as [|i rest IH]; intros l out Hl;
      cbn [parse_raw_posts_from]; [by intros [= <-]|].
    destruct (parse_raw_post str_of base l i) as [l'|] eqn:E; [|done].
    cbn [mbind res_bind]. apply IH. by eapply parse_raw_post_wf. }
  assert (Herr : ∀ l e,
            parse_raw_posts_from str_of base l l_raw_posts = Raise e →
            e = IndexError ∨ e = AttributeError).
  { clear Hwf. induction l_raw_posts as [|i rest IH]; intros l e;
      cbn [parse_raw_posts_from]; [done|].
    destruct (parse_raw_post str_of base l i) as [l'|e'] eqn:E;
      cbn [mbind res_bind]; [by apply IH|].
    intros [= <-]. by eapply parse_raw_post_raise. }
  split; [intros out; by apply Hwf|]. split; [apply Herr | done].
Qed.

Lemma parse_list_raw_posts_shape_witness :
  Forall post_wf [post_of_full "https://x" sample_full_post].
Proof.
  apply (proj1 (parse_list_raw_posts_shape str_of_text
                  [raw_of_full sample_full_post] "https://x")).
  vm_compute; reflexivity.
Defined.


Lemma truthy_str (s : string) : s ≠ "" → truthy (PStr s) = true.
Proof. by destruct s. Qed.

Lemma truthy_app_cons (x : string) (c : ascii) (y : string) :
  truthy (PStr (x +:+ String c y)) = true.
Proof. by destruct x. Qed.

Lemma truthy_profile_link base (urn : string) :
  truthy (PStr (profile_link base urn)) = true.
Proof.
  unfold profile_link. destruct (Str.contains "company" urn); apply truthy_app_cons.
Qed.

(** The five extractors on a raw record that has the five texts. *)
Lemma complete_raw_fields str_of base i (fp : full_post) :
  (∀ s, str_of (PStr s) = s) → complete_raw i fp → full_post_ok fp →
  get_update_author_name i = Ok (PStr (fp_name fp)) ∧
  get_update_author_profile i base
    = Ok (PStr (profile_link base (fp_actor_urn fp))) ∧
  get_update_old i = Ok (PStr (fp_old fp)) ∧
  get_update_content i base = Ok (PStr (fp_content fp)) ∧
  get_update_url str_of i base
    = Ok (PStr (base +:+ "/feed/update/" +:+ fp_post_urn fp)).
Proof.
  intros Hstr (m & actor & name & sub & com & txt & meta & -> & Ha & Hn & Hnt
               & Hu & Hs & Hst & Hc & Hct & Hctt & Hm & Hmu) (_ & _ & _ & Hkind).
  unfold get_update_author_name, get_update_author_profile, get_update_old,
    get_update_content, get_update_url.
  rewrite !getitem_dict, Ha, Hc, Hm. cbn [mbind res_bind].
  rewrite !getitem_dict, Hn, Hu, Hs, Hct, Hmu. cbn [mbind res_bind].
  rewrite !getitem_dict, Hnt, Hst, Hctt, Hstr. cbn [except_key_type].
  repeat split; try done.
  cbn [author_profile_of_urn]. unfold last_item. rewrite last_split.
  cbn [mbind res_bind]. unfold profile_link.
  destruct (Str.contains "company" (fp_actor_urn fp)); [done|].
  destruct Hkind as [?| ->]; done.
Qed.

Lemma add_first_field i l v :
  at_boundary l → truthy v = true →
  add_field i l "author_name" v = l ++ [{["author_name" := v]}].
Proof.
  intros Hb Hv. unfold add_field. rewrite Hv.
  destruct Hb as [-> | (l0 & cur & -> & Hcur)]; [done|].
  rewrite append_field_new by done. by rewrite <- app_assoc.
Qed.

Lemma add_next_field i l cur k v :
  cur !! k = None → truthy v = true →
  add_field i (l ++ [cur]) k v = l ++ [<[k := v]> cur].
Proof.
  intros Hk Hv. unfold add_field. rewrite Hv. by apply append_field_fill.
Qed.

Lemma parse_raw_post_complete str_of base l i (fp : full_post) :
  (∀ s, str_of (PStr s) = s) → complete_raw i fp → full_post_ok fp →
  at_boundary l →
  parse_raw_post str_of base l i = Ok (l ++ [post_of_full base fp]).
Proof.
  intros Hstr Hi Hok Hb.
  destruct (complete_raw_fields str_of base i fp Hstr Hi Hok)
    as (E1 & E2 & E3 & E4 & E5).
  destruct Hok as (Hn & Ho & Hc & _).
  unfold parse_raw_post. rewrite E1, E2, E3, E4, E5. cbn [mbind res_bind].
  rewrite (add_first_field i l _ Hb (truthy_str _ Hn)).
  rewrite add_next_field; [|done | apply truthy_profile_link].
  rewrite add_next_field; [|by simplify_map_eq | by apply truthy_str].
  rewrite add_next_field; [|by simplify_map_eq | by apply truthy_str].
  rewrite add_next_field; [|by simplify_map_eq | apply truthy_app_cons].
  done.
Qed.

Lemma post_of_full_has_name base (fp : full_post) :
  is_Some (post_of_full base fp !! "author_name").
Proof. unfold post_of_full. by simplify_map_eq. Qed.

Lemma parse_raw_posts_from_complete str_of base l (l_raw_posts : list pyval)
    (fps : list full_post) :
  (∀ s, str_of (PStr s) = s) →
  Forall2 (λ i fp, complete_raw i fp ∧ full_post_ok fp) l_raw_posts fps →
  at_boundary l →
  parse_raw_posts_from str_of base l l_raw_posts
  = Ok (l ++ (post_of_full base <$> fps)).
Proof.
  intros Hstr Hall. revert l.
  induction Hall as [|i fp rest fps' [Hi Hok] _ IH]; intros l Hb;
    cbn [parse_raw_posts_from fmap list_fmap].
  - by rewrite app_nil_r.
  - rewrite (parse_raw_post_complete str_of base l i fp Hstr Hi Hok Hb).
    cbn [mbind res_bind]. rewrite IH.
    + by rewrite <- app_assoc.
    + right. exists l, (post_of_full base fp). split; [done|].
      apply post_of_full_has_name.
Qed.

(** X13.  Raw records that each carry the five texts (author name, actor
    identifier of a company or member, age, commentary, update identifier),
    none of them empty, come out of [parse_list_raw_posts] as one mapping
    per record, in order, holding the name, the profile link, the age, the
    commentary and the link to the update. *)
Theorem parse_list_raw_posts_complete str_of (l_raw_posts : list pyval)
    (fps : list full_post) base :
  (∀ s, str_of (PStr s) = s) →
  Forall2 (λ i fp, complete_raw i fp ∧ full_post_ok fp) l_raw_posts fps →
  parse_list_raw_posts str_of l_raw_posts base = Ok (post_of_full base <$> fps).
Proof.
  intros Hstr Hall. unfold parse_list_raw_posts.
  rewrite (parse_raw_posts_from_complete str_of base [] _ fps Hstr Hall); [done|].
  by left.
Qed.

Lemma complete_raw_of_full (fp : full_post) : complete_raw (raw_of_full fp) fp.
Proof.
  unfold complete_raw, raw_of_full, text_node, obj.
  do 7 eexists. split; [reflexivity|].
  repeat split; cbn [list_to_map foldr uncurry]; by simplify_map_eq.
Qed.

Lemma sample_full_post_ok : full_post_ok sample_full_post.
Proof. repeat split; try discriminate. right. reflexivity. Qed.

Lemma parse_list_raw_posts_complete_witness :
  parse_list_raw_posts str_of_text
    [raw_of_full sample_full_post; raw_of_full sample_full_post] "https://x"
  = Ok [post_of_full "https://x" sample_full_post;
        post_of_full "https://x" sample_full_post].
Proof.
  apply (parse_list_raw_posts_complete str_of_text _
           [sample_full_post; sample_full_post] "https://x").
  - reflexivity.
  - repeat (constructor;
              [split; [apply complete_raw_of_full | apply sample_full_post_ok]|]).
    constructor.
Defined.

(** X14.  Post boundaries come from field repetition, not from the raw
    records: a record that only has an update identifier adds its link to
    the last mapping, built from earlier records, when that mapping has no
    ["url"] yet, and starts a mapping of its own when it has one. *)
Theorem parse_raw_post_joins_previous str_of base l cur
    (m meta : gmap string pyval) (post_urn : string) :
  (∀ s, str_of (PStr s) = s) →
  m !! "actor" = None → m !! "commentary" = None →
  m !! "updateMetadata" = Some (PDict meta) →
  meta !! "urn" = Some (PStr post_urn) →
  let link := PStr (base +:+ "/feed/update/" +:+ post_urn) in
  (cur !! "url" = None →
   parse_raw_post str_of base (l ++ [cur]) (PDict m)
   = Ok (l ++ [<["url" := link]> cur])) ∧
  (is_Some (cur !! "url") →
   parse_raw_post str_of base (l ++ [cur]) (PDict m)
   = Ok (l ++ [cur; {["url" := link]}])).
Proof.
  intros Hstr Ha Hc Hm Hu link.
  destruct (actor_missing m base Ha) as (E1 & E3 & E2).
  assert (E4 : get_update_content (PDict m) base = Ok (PStr "")).
  { unfold get_update_content. by rewrite getitem_dict, Hc. }
  assert (E5 : get_update_url str_of (PDict m) base = Ok link).
  { unfold get_update_url. rewrite getitem_dict, Hm. cbn [mbind res_bind].
    by rewrite getitem_dict, Hu, Hstr. }
  assert (Hlink : truthy link = true) by (subst link; by destruct base).
  assert (Hempty : ∀ l' k, add_field (PDict m) l' k (PStr "") = l') by done.
  unfold parse_raw_post. rewrite E1, E2, E3, E4, E5. cbn [mbind res_bind].
  rewrite !Hempty. unfold add_field. rewrite Hlink. split.
  - intros Hk. by rewrite append_field_fill.
  - intros Hk. by rewrite append_field_new.
Qed.

Lemma parse_raw_post_joins_previous_witness :
  parse_raw_post str_of_text "https://x" [{["author_name" := PStr "Ann"]}]
    (PDict {["updateMetadata" := PDict {["urn" := PStr "urn:li:activity:5"]}]})
  = Ok [<["url" := PStr "https://x/feed/update/urn:li:activity:5"]>
          {["author_name" := PStr "Ann"]}].
Proof.
  destruct (parse_raw_post_joins_previous str_of_text "https://x" []
              {["author_name" := PStr "Ann"]}
              {["updateMetadata" := PDict {["urn" := PStr "urn:li:activity:5"]}]}
              {["urn" := PStr "urn:li:activity:5"]} "urn:li:activity:5")
    as [H _];
    [ reflexivity | by apply lookup_singleton_ne | by apply lookup_singleton_ne
    | apply lookup_singleton_eq | apply lookup_singleton_eq |].
  apply H. by apply lookup_singleton_ne.
Defined.

End ParsePosts.

(** ** The feed assembler, further *)

Section AssemblerMore.

Implicit Types (l l_posts sorted remaining : list (gmap string pyval)).
Implicit Types (post : gmap string pyval) (urn : string).

Lemma py_in_raise (needle : string) (hay : pyval) (e : exn) :
  py_in needle hay = Raise e → e = TypeError.
Proof. destruct hay; cbn [py_in]; congruence. Qed.

Lemma filter_not_in_total (needle key : string) l :
  Forall (λ post, ∃ s, post !! key = Some (PStr s)) l →
  ∃ kept, filter_not_in needle key l = Ok kept.
Proof.
  induction 1 as [|post l [s Hs] _ [kept IH]]; [by exists []|].
  cbn [filter_not_in]. unfold dict_get. rewrite Hs. cbn [default py_in mbind res_bind].
  rewrite IH. cbn [mbind res_bind]. by eexists.
Qed.

Lemma filter_not_in_evaluated (needle key : string) l kept :
  filter_not_in needle key l = Ok kept →
  Forall (λ post, ∃ b, py_in needle (dict_get post key) = Ok b) l.
Proof.
  revert kept. induction l as [|post l IH]; intros kept; cbn [filter_not_in];
    [constructor|].
  destruct (py_in needle (dict_get post key)) as [b|] eqn:E; [|done].
  cbn [mbind res_bind].
  destruct (filter_not_in needle key l) as [kept'|]; [|done].
  intros _. constructor; [by exists b | by eapply IH].
Qed.

Lemma filter_not_in_raise (needle key : string) l (e : exn) :
  filter_not_in needle key l = Raise e → e = TypeError.
Proof.
  induction l as [|post l IH]; cbn [filter_not_in]; [done|].
  destruct (py_in needle (dict_get post key)) as [b|e'] eqn:E;
    cbn [mbind res_bind]; [|intros [= <-]; by eapply py_in_raise].
  destruct (filter_not_in needle key l) as [kept'|e'']; cbn [mbind res_bind];
    [done | intros [= <-]; by apply IH].
Qed.

Lemma filter_not_in_length (needle key : string) l kept :
  filter_not_in needle key l = Ok kept →
  (length kept ≤ length l)%nat ∧
  (∀ post, post ∈ l → py_in needle (dict_get post key) = Ok true →
     (length kept < length l)%nat).
Proof.
  revert kept. induction l as [|d l IH]; intros kept; cbn [filter_not_in].
  - intros [= <-]. split; [done|]. by intros post ?%elem_of_nil.
  - destruct (py_in needle (dict_get d key)) as [b|] eqn:E; [|done].
    cbn [mbind res_bind].
    destruct (filter_not_in needle key l) as [kept'|]; [|done].
    cbn [mbind res_bind]. destruct (IH kept' eq_refl) as [Hle Hlt].
    intros [= <-]. destruct b; cbn [length].
    + split; [lia|]. intros; lia.
    + split; [lia|]. intros post [->|Hin]%elem_of_cons Hp; [congruence|].
      specialize (Hlt post Hin Hp). lia.
Qed.

Lemma find_post_total urn l :
  Forall (λ post, ∃ s, post !! "url" = Some (PStr s)) l →
  ∃ hit, find_post urn l = Ok hit.
Proof.
  induction 1 as [|post l [s Hs] _ [hit IH]]; [by exists None|].
  cbn [find_post]. rewrite getitem_dict, Hs. cbn [mbind res_bind py_in].
  destruct (Str.contains urn s); [by eexists|]. by rewrite IH; eexists.
Qed.

Lemma find_post_contains urn l post :
  find_post urn l = Ok (Some post) → url_contains urn post = Ok true.
Proof.
  unfold url_contains. induction l as [|p l IH]; cbn [find_post]; [done|].
  destruct (getitem (PDict p) "url") as [u|] eqn:Eu; [|done].
  cbn [mbind res_bind]. destruct (py_in urn u) as [[]|] eqn:Ein;
    cbn [mbind res_bind]; [|done..].
  intros [= <-]. by rewrite Eu; cbn [mbind res_bind].
Qed.

Lemma subseteq_Forall {A} (P : A → Prop) (l1 l2 : list A) :
  l1 ⊆ l2 → Forall P l2 → Forall P l1.
Proof. rewrite !Forall_forall. intros Hsub H x Hx. by apply H, Hsub. Qed.

Lemma place_urn_total urn sorted l :
  Forall (λ post, ∃ s, post !! "url" = Some (PStr s)) l →
  ∃ sorted' l', place_urn urn (sorted, l) = Ok (sorted', l').
Proof.
  intros Hl. unfold place_urn. destruct (find_post_total urn l Hl) as [hit ->].
  cbn [mbind res_bind]. destruct hit as [post|]; [|by eexists _, _].
  destruct (filter_not_in_total urn "url" l Hl) as [kept ->]. by eexists _, _.
Qed.

Lemma place_urns_total (l_urns : list string) sorted l :
  Forall (λ post, ∃ s, post !! "url" = Some (PStr s)) l →
  ∃ sorted' l', place_urns l_urns (sorted, l) = Ok (sorted', l').
Proof.
  revert sorted l. induction l_urns as [|urn rest IH]; intros sorted l Hl;
    cbn [place_urns]; [by eexists _, _|].
  destruct (place_urn_total urn sorted l Hl) as (s1 & l1 & E). rewrite E.
  cbn [mbind res_bind]. apply IH.
  apply place_urn_spec in E as [Hsub _]. by eapply subseteq_Forall.
Qed.

(** X15.  On mappings that all have a string under ["old"] and a string
    under ["url"], [get_list_posts_sorted_without_promoted] returns, for
    every ordering list; what it returns, and what it leaves in the working
    list, are mappings of the input. *)
Theorem assembler_returns (l_urns : list string) l_posts :
  Forall post_has_texts l_posts →
  ∃ sorted remaining,
    get_list_posts_sorted_without_promoted l_urns l_posts = Ok (sorted, remaining) ∧
    sorted ⊆ l_posts ∧ remaining ⊆ l_posts.
Proof.
  intros Hall. unfold get_list_posts_sorted_without_promoted.
  destruct (filter_not_in_total "Promoted" "old" l_posts) as [kept Hk].
  { eapply Forall_impl; [exact Hall|]. by intros post [? _]. }
  rewrite Hk. cbn [mbind res_bind].
  apply filter_not_in_spec in Hk as [Hsub _].
  destruct (place_urns_total l_urns [] kept) as (sorted & remaining & E).
  { eapply subseteq_Forall; [exact Hsub|].
    eapply Forall_impl; [exact Hall|]. by intros post [_ ?]. }
  exists sorted, remaining. split; [done|].
  apply place_urns_spec in E as (Hrem & new & -> & Hnew).
  split; [|by etrans]. rewrite app_nil_l. by etrans.
Qed.

Lemma assembler_returns_witness :
  ∃ sorted remaining,
    get_list_posts_sorted_without_promoted ["B"; "A"]
      [sample_post "1d" "x/A"; sample_post "Promoted" "x/B"]
    = Ok (sorted, remaining) ∧
    sorted ⊆ [sample_post "1d" "x/A"; sample_post "Promoted" "x/B"] ∧
    remaining ⊆ [sample_post "1d" "x/A"; sample_post "Promoted" "x/B"].
Proof.
  apply (assembler_returns ["B"; "A"]).
  repeat constructor; eexists; vm_compute; reflexivity.
Defined.


Lemma place_urn_cases urn sorted l sorted' l' :
  place_urn urn (sorted, l) = Ok (sorted', l') →
  (sorted' = sorted ∧ l' = l ∧
   Forall (λ post, url_contains urn post = Ok false) l) ∨
  (∃ post, sorted' = sorted ++ [post] ∧ post ∈ l ∧
     url_contains urn post = Ok true ∧
     filter_not_in urn "url" l = Ok l').
Proof.
  unfold place_urn.
  destruct (find_post urn l) as [[post|]|] eqn:Hf; cbn [mbind res_bind]; [| |done].
  - destruct (filter_not_in urn "url" l) as [kept|] eqn:Hk; [|done].
    cbn [mbind res_bind]. intros [= <- <-]. right. exists post.
    split; [done|]. split; [by eapply find_post_some|].
    split; [by eapply find_post_contains | done].
  - intros [= <- <-]. left. split; [done|]. split; [done|].
    by apply find_post_none.
Qed.

(** The mappings kept by the filter of line 236 do not contain the URN. *)
Lemma filter_url_clean urn l kept :
  filter_not_in urn "url" l = Ok kept →
  Forall (λ post, url_contains urn post = Ok false) kept.
Proof.
  intros [_ Hall]%filter_not_in_spec. eapply Forall_impl; [exact Hall|].
  intros post. unfold url_contains, dict_get. rewrite getitem_dict.
  destruct (post !! "url"); cbn [default mbind res_bind]; done.
Qed.

Lemma url_contains_dict_get urn post (b : bool) :
  url_contains urn post = Ok b → py_in urn (dict_get post "url") = Ok b.
Proof.
  unfold url_contains, dict_get. rewrite getitem_dict.
  destruct (post !! "url"); cbn [default mbind res_bind]; done.
Qed.

Lemma place_urn_clean urn sorted l sorted' l' :
  place_urn urn (sorted, l) = Ok (sorted', l') →
  Forall (λ post, url_contains urn post = Ok false) l'.
Proof.
  intros [(_ & -> & H)|(post & _ & _ & _ & Hk)]%place_urn_cases; [done|].
  by eapply filter_url_clean.
Qed.

Lemma place_urns_order (l_urns : list string) sorted l sorted' l' :
  place_urns l_urns (sorted, l) = Ok (sorted', l') →
  ∃ placed new, sorted' = sorted ++ new ∧ sublist placed l_urns ∧
    Forall2 (λ urn post, url_contains urn post = Ok true) placed new.
Proof.
  revert sorted l. induction l_urns as [|urn rest IH]; intros sorted l;
    cbn [place_urns].
  - intros [= <- <-]. exists [], []. by rewrite app_nil_r.
  - destruct (place_urn urn (sorted, l)) as [[s1 l1]|] eqn:E1; [|done].
    cbn [mbind res_bind]. intros (placed & new & -> & Hsub & Hall)%IH.
    apply place_urn_cases in E1 as [(-> & _ & _)|(post & -> & _ & Hp & _)].
    + exists placed, new. split; [done|]. split; [by apply sublist_cons | done].
    + exists (urn :: placed), (post :: new).
      split; [by rewrite <- app_assoc|].
      split; [by apply sublist_skip | by constructor].
Qed.

(** X16.  The list returned follows the ordering list, not the input: its
    mappings answer, one for one and in order, to a subsequence of the
    ordering list, each mapping's ["url"] containing its URN. *)
Theorem assembler_follows_ordering (l_urns : list string) l_posts sorted remaining :
  get_list_posts_sorted_without_promoted l_urns l_posts = Ok (sorted, remaining) →
  ∃ placed, sublist placed l_urns ∧
    Forall2 (λ urn post, url_contains urn post = Ok true) placed sorted ∧
    (length sorted ≤ length l_urns)%nat.
Proof.
  unfold get_list_posts_sorted_without_promoted.
  destruct (filter_not_in "Promoted" "old" l_posts) as [kept|]; [|done].
  cbn [mbind res_bind]. intros (placed & new & -> & Hsub & Hall)%place_urns_order.
  rewrite app_nil_l. exists placed. split; [done|]. split; [done|].
  rewrite <- (Forall2_length _ _ _ Hall). by apply sublist_length.
Qed.

Lemma assembler_follows_ordering_witness :
  ∃ placed, sublist placed ["B"; "Z"; "A"] ∧
    Forall2 (λ urn post, url_contains urn post = Ok true) placed
      [sample_post "2d" "x/B"; sample_post "1d" "x/A"] ∧
    (length [sample_post "2d" "x/B"; sample_post "1d" "x/A"]
     ≤ length ["B"; "Z"; "A"])%nat.
Proof.
  apply (assembler_follows_ordering ["B"; "Z"; "A"]
           [sample_post "1d" "x/A"; sample_post "2d" "x/B"]
           [sample_post "2d" "x/B"; sample_post "1d" "x/A"] []).
  vm_compute; reflexivity.
Defined.

Lemma place_urn_disjoint urn sorted l sorted' l' :
  place_urn urn (sorted, l) = Ok (sorted', l') →
  NoDup sorted → (∀ post, post ∈ sorted → post ∉ l) →
  NoDup sorted' ∧ (∀ post, post ∈ sorted' → post ∉ l') ∧
  (length sorted' + length l' ≤ length sorted + length l)%nat.
Proof.
  intros Hplace Hnd Hdis.
  destruct (place_urn_cases _ _ _ _ _ Hplace)
    as [(-> & -> & _)|(post & -> & Hin & Hp & Hk)]; [done|].
  pose proof (filter_url_clean _ _ _ Hk) as Hclean. rewrite Forall_forall in Hclean.
  destruct (filter_not_in_spec _ _ _ _ Hk) as [Hsub _].
  destruct (filter_not_in_length _ _ _ _ Hk) as [_ Hlt].
  split; [|split].
  - apply NoDup_app. split; [done|]. split; [|apply NoDup_singleton].
    intros x Hx ->%list_elem_of_singleton. by apply (Hdis post).
  - intros x [Hx| ->%list_elem_of_singleton]%elem_of_app Hx'.
    + by apply (Hdis x Hx), Hsub.
    + specialize (Hclean post Hx'). congruence.
  - rewrite length_app. cbn [length].
    specialize (Hlt post Hin (url_contains_dict_get _ _ _ Hp)). lia.
Qed.

Lemma place_urns_disjoint (l_urns : list string) sorted l sorted' l' :
  place_urns l_urns (sorted, l) = Ok (sorted', l') →
  NoDup sorted → (∀ post, post ∈ sorted → post ∉ l) →
  NoDup sorted' ∧ (∀ post, post ∈ sorted' → post ∉ l') ∧
  (length sorted' + length l' ≤ length sorted + length l)%nat.
Proof.
  revert sorted l. induction l_urns as [|urn rest IH]; intros sorted l;
    cbn [place_urns].
  - intros [= <- <-]. done.
  - destruct (place_urn urn (sorted, l)) as [[s1 l1]|] eqn:E1; [|done].
    cbn [mbind res_bind]. intros Hrest Hnd Hdis.
    destruct (place_urn_disjoint _ _ _ _ _ E1 Hnd Hdis) as (Hnd1 & Hdis1 & Hlen1).
    destruct (IH _ _ Hrest Hnd1 Hdis1) as (? & ? & ?).
    split; [done|]. split; [done | lia].
Qed.

(** X17.  No mapping is returned twice, no returned mapping is left in the
    working list, and the returned and the left-over mappings together are
    no more than the input had. *)
Theorem assembler_no_duplicates (l_urns : list string) l_posts sorted remaining :
  get_list_posts_sorted_without_promoted l_urns l_posts = Ok (sorted, remaining) →
  NoDup sorted ∧ (∀ post, post ∈ sorted → post ∉ remaining) ∧
  (length sorted + length remaining ≤ length l_posts)%nat.
Proof.
  unfold get_list_posts_sorted_without_promoted.
  destruct (filter_not_in "Promoted" "old" l_posts) as [kept|] eqn:Hk; [|done].
  cbn [mbind res_bind]. intros Hrun.
  destruct (place_urns_disjoint _ _ _ _ _ Hrun) as (Hnd & Hdis & Hlen).
  - constructor.
  - by intros post ?%elem_of_nil.
  - destruct (filter_not_in_length _ _ _ _ Hk) as [Hle _].
    split; [done|]. split; [done|]. cbn [length] in Hlen. lia.
Qed.

Lemma assembler_no_duplicates_witness :
  NoDup [sample_post "1d" "x/A"] ∧
  (∀ post, post ∈ [sample_post "1d" "x/A"] → post ∉ [sample_post "3d" "x/C"]) ∧
  (length [sample_post "1d" "x/A"] + length [sample_post "3d" "x/C"]
   ≤ length [sample_post "1d" "x/A"; sample_post "2d" "y/A";
             sample_post "3d" "x/C"])%nat.
Proof.
  apply (assembler_no_duplicates ["A"; "A"]
           [sample_post "1d" "x/A"; sample_post "2d" "y/A"; sample_post "3d" "x/C"]
           [sample_post "1d" "x/A"] [sample_post "3d" "x/C"]).
  vm_compute; reflexivity.
Defined.


Lemma find_post_first urn (pre : list (gmap string pyval)) post rest :
  Forall (λ p, url_contains urn p = Ok false) pre →
  url_contains urn post = Ok true →
  find_post urn (pre ++ post :: rest) = Ok (Some post).
Proof.
  unfold url_contains. intros Hpre Hpost.
  induction Hpre as [|p pre Hp _ IH]; cbn [app find_post].
  - destruct (getitem (PDict post) "url") as [u|]; [|done].
    cbn [mbind res_bind] in *. by rewrite Hpost.
  - destruct (getitem (PDict p) "url") as [u|]; [|done].
    cbn [mbind res_bind] in *. by rewrite Hp.
Qed.

Lemma filter_not_in_keeps (needle key : string) l kept post :
  filter_not_in needle key l = Ok kept →
  post ∈ l → py_in needle (dict_get post key) = Ok false → post ∈ kept.
Proof.
  revert kept. induction l as [|d l IH]; intros kept; cbn [filter_not_in].
  - by intros _ ?%elem_of_nil.
  - destruct (py_in needle (dict_get d key)) as [b|] eqn:E; [|done].
    cbn [mbind res_bind].
    destruct (filter_not_in needle key l) as [kept'|]; [|done].
    cbn [mbind res_bind]. intros [= <-] [->|Hin]%elem_of_cons Hp.
    + rewrite E in Hp. injection Hp as ->. by left.
    + destruct b; [|right]; by apply (IH kept').
Qed.

Lemma filter_not_in_total_evaluated (needle key : string) l :
  Forall (λ post, ∃ b, py_in needle (dict_get post key) = Ok b) l →
  ∃ kept, filter_not_in needle key l = Ok kept.
Proof.
  induction 1 as [|post l [b Hb] _ [kept IH]]; [by exists []|].
  cbn [filter_not_in]. rewrite Hb, IH. cbn [mbind res_bind]. by eexists.
Qed.

(** X18.  A URN takes the first mapping of the working list whose ["url"]
    contains it, and every other mapping containing it is discarded with it:
    the working list that is left has exactly the mappings that do not
    contain the URN. *)
Theorem first_match_taken urn sorted (pre : list (gmap string pyval)) post rest :
  Forall (λ p, url_contains urn p = Ok false) pre →
  url_contains urn post = Ok true →
  Forall (λ p, ∃ b, url_contains urn p = Ok b) rest →
  ∃ kept,
    place_urn urn (sorted, pre ++ post :: rest) = Ok (sorted ++ [post], kept) ∧
    ∀ p, p ∈ kept ↔ p ∈ pre ++ rest ∧ url_contains urn p = Ok false.
Proof.
  intros Hpre Hpost Hrest. unfold place_urn.
  rewrite (find_post_first urn pre post rest Hpre Hpost). cbn [mbind res_bind].
  destruct (filter_not_in_total_evaluated urn "url" (pre ++ post :: rest))
    as [kept Hk].
  { apply Forall_app. split.
    - eapply Forall_impl; [exact Hpre|]. intros p Hp. exists false.
      by apply url_contains_dict_get.
    - constructor; [exists true; by apply url_contains_dict_get|].
      eapply Forall_impl; [exact Hrest|]. intros p [b Hp]. exists b.
      by apply url_contains_dict_get. }
  rewrite Hk. cbn [mbind res_bind]. exists kept. split; [done|].
  pose proof (filter_url_clean _ _ _ Hk) as Hclean. rewrite Forall_forall in Hclean.
  destruct (filter_not_in_spec _ _ _ _ Hk) as [Hsub _].
  intros p. split.
  - intros Hp. split; [|by apply Hclean].
    specialize (Hclean p Hp).
    apply Hsub in Hp. rewrite elem_of_app, elem_of_cons in Hp.
    rewrite elem_of_app. destruct Hp as [?|[->|?]]; [by left | congruence | by right].
  - intros [Hin Hp]. apply (filter_not_in_keeps _ _ _ _ _ Hk).
    + rewrite elem_of_app, elem_of_cons. rewrite elem_of_app in Hin. tauto.
    + by apply url_contains_dict_get.
Qed.

Lemma first_match_taken_witness :
  ∃ kept,
    place_urn "A" ([], [sample_post "1d" "x/B"; sample_post "2d" "x/AB";
                        sample_post "3d" "x/A"; sample_post "4d" "x/C"])
    = Ok ([] ++ [sample_post "2d" "x/AB"], kept) ∧
    ∀ p, p ∈ kept ↔
         p ∈ [sample_post "1d" "x/B"] ++
             [sample_post "3d" "x/A"; sample_post "4d" "x/C"] ∧
         url_contains "A" p = Ok false.
Proof.
  apply (first_match_taken "A" [] [sample_post "1d" "x/B"]
           (sample_post "2d" "x/AB")
           [sample_post "3d" "x/A"; sample_post "4d" "x/C"]).
  - repeat constructor.
  - reflexivity.
  - repeat constructor; eexists; reflexivity.
Defined.

Lemma place_urns_clean (l_urns : list string) urn sorted l sorted' l' :
  place_urns l_urns (sorted, l) = Ok (sorted', l') →
  Forall (λ post, url_contains urn post = Ok false) l →
  Forall (λ post, url_contains urn post = Ok false) l'.
Proof.
  intros [Hsub _]%place_urns_spec. by apply subseteq_Forall.
Qed.

(** X19.  A URN that occurs again later in the ordering list adds nothing
    the second time: the call gives the same result, or raises the same
    exception, as on the ordering list without the later occurrence. *)
Theorem repeated_urn_ignored (l1 l2 l3 : list string) urn l_posts :
  get_list_posts_sorted_without_promoted (l1 ++ urn :: l2 ++ urn :: l3) l_posts
  = get_list_posts_sorted_without_promoted (l1 ++ urn :: l2 ++ l3) l_posts.
Proof.
  unfold get_list_posts_sorted_without_promoted.
  destruct (filter_not_in "Promoted" "old" l_posts) as [kept|]; [|done].
  cbn [mbind res_bind]. rewrite !place_urns_app.
  destruct (place_urns l1 ([], kept)) as [[s1 p1]|]; [|done].
  cbn [mbind res_bind place_urns].
  destruct (place_urn urn (s1, p1)) as [[s2 p2]|] eqn:E2; [|done].
  cbn [mbind res_bind]. rewrite !place_urns_app.
  destruct (place_urns l2 (s2, p2)) as [[s3 p3]|] eqn:E3; [|done].
  cbn [mbind res_bind place_urns]. rewrite place_urn_skip; [done|].
  eapply place_urns_clean; [exact E3|]. by eapply place_urn_clean.
Qed.

(** X20.  A mapping without an ["old"] key makes the call raise
    [TypeError], for every ordering list: [d.get("old")] is then [None], on
    which [in] is not defined. *)
Theorem missing_old_raises (l_urns : list string) l_posts post :
  post ∈ l_posts → post !! "old" = None →
  get_list_posts_sorted_without_promoted l_urns l_posts = Raise TypeError.
Proof.
  intros Hin Hold. unfold get_list_posts_sorted_without_promoted.
  destruct (filter_not_in "Promoted" "old" l_posts) as [kept|e] eqn:Hk.
  - apply filter_not_in_evaluated in Hk. rewrite Forall_forall in Hk.
    destruct (Hk post Hin) as [b Hb]. unfold dict_get in Hb.
    by rewrite Hold in Hb.
  - by rewrite (filter_not_in_raise _ _ _ _ Hk).
Qed.

Lemma missing_old_raises_witness :
  get_list_posts_sorted_without_promoted ["A"]
    [sample_post "1d" "x/A"; {["url" := PStr "x/B"]}]
  = Raise TypeError.
Proof.
  apply (missing_old_raises ["A"] _ {["url" := PStr "x/B"]}).
  - right. left.
  - by apply lookup_singleton_ne.
Defined.

End AssemblerMore.

(** ** From raw records to the assembled feed *)

Section Composition.

Lemma contains_unfold (needle hay : string) :
  Str.contains needle hay =
  if String.prefix needle hay then true
  else match hay with
       | EmptyString => false
       | String _ hay' => Str.contains needle hay'
       end.
Proof. by destruct hay. Qed.

Lemma contains_app (pre needle rest : string) :
  Str.contains needle (pre +:+ needle +:+ rest) = true.
Proof.
  induction pre as [|c pre IH]; rewrite contains_unfold.
  - change ("" +:+ needle +:+ rest) with (needle +:+ rest).
    by rewrite prefix_of_app.
  - change (String c pre +:+ needle +:+ rest)
      with (String c (pre +:+ needle +:+ rest)).
    by destruct (String.prefix _ _).
Qed.

Lemma post_of_full_lookups (base : string) (fp : full_post) :
  post_of_full base fp !! "old" = Some (PStr (fp_old fp)) ∧
  post_of_full base fp !! "url"
    = Some (PStr (base +:+ "/feed/update/" +:+ fp_post_urn fp)).
Proof. unfold post_of_full. split; by simplify_map_eq. Qed.

Lemma post_of_full_texts (base : string) (fp : full_post) :
  post_has_texts (post_of_full base fp).
Proof.
  destruct (post_of_full_lookups base fp) as [Ho Hu]. split; by eexists.
Qed.

Lemma post_of_full_found (base : string) (fp : full_post) :
  url_contains (fp_post_urn fp) (post_of_full base fp) = Ok true.
Proof.
  destruct (post_of_full_lookups base fp) as [_ Hu].
  unfold url_contains. rewrite getitem_dict, Hu. cbn [mbind res_bind py_in].
  f_equal. rewrite <- (app_empty_r (fp_post_urn fp)) at 2.
  rewrite <- app_assoc_str. apply contains_app.
Qed.

(** X21.  Raw records that each carry the five non-empty texts go through
    [parse_list_raw_posts] and then [get_list_posts_sorted_without_promoted]
    without an exception, whatever the ordering list; and asking for the
    update identifier of a record that is not promoted returns one mapping,
    whose link contains that identifier. *)
Theorem parse_then_assemble (str_of : pyval → string) (l_raw_posts : list pyval)
    (fps : list full_post) (base : string) :
  (∀ s, str_of (PStr s) = s) →
  Forall2 (λ i fp, complete_raw i fp ∧ full_post_ok fp) l_raw_posts fps →
  ∃ posts,
    parse_list_raw_posts str_of l_raw_posts base = Ok posts ∧
    length posts = length l_raw_posts ∧
    (∀ l_urns : list string, ∃ sorted remaining,
       get_list_posts_sorted_without_promoted l_urns posts = Ok (sorted, remaining)
       ∧ sorted ⊆ posts) ∧
    (∀ fp, fp ∈ fps → Str.contains "Promoted" (fp_old fp) = false →
       ∃ post remaining,
         get_list_posts_sorted_without_promoted [fp_post_urn fp] posts
         = Ok ([post], remaining) ∧
         url_contains (fp_post_urn fp) post = Ok true).
Proof.
  intros Hstr Hall. exists (post_of_full base <$> fps).
  assert (Htexts : Forall post_has_texts (post_of_full base <$> fps)).
  { apply Forall_fmap, Forall_forall. intros fp _. apply post_of_full_texts. }
  assert (Hurls : ∀ l, l ⊆ post_of_full base <$> fps →
            Forall (λ post, ∃ s, post !! "url" = Some (PStr s)) l).
  { intros l Hsub. eapply subseteq_Forall; [exact Hsub|].
    eapply Forall_impl; [exact Htexts|]. by intros post [_ ?]. }
  split; [|split; [|split]].
  - unfold parse_list_raw_posts.
    rewrite (parse_raw_posts_from_complete str_of base [] _ fps Hstr Hall); [done|].
    by left.
  - rewrite length_fmap. symmetry. by eapply Forall2_length.
  - intros l_urns. unfold get_list_posts_sorted_without_promoted.
    destruct (filter_not_in_total "Promoted" "old" (post_of_full base <$> fps))
      as [kept Hk].
    { eapply Forall_impl; [exact Htexts|]. by intros post [? _]. }
    rewrite Hk. cbn [mbind res_bind].
    apply filter_not_in_spec in Hk as [Hsub _].
    destruct (place_urns_total l_urns [] kept (Hurls kept Hsub))
      as (sorted & remaining & E).
    exists sorted, remaining. split; [done|].
    apply place_urns_spec in E as (_ & new & -> & Hnew). rewrite app_nil_l.
    by etrans.
  - intros fp Hfp Hnot. unfold get_list_posts_sorted_without_promoted.
    destruct (filter_not_in_total "Promoted" "old" (post_of_full base <$> fps))
      as [kept Hk].
    { eapply Forall_impl; [exact Htexts|]. by intros post [? _]. }
    rewrite Hk. cbn [mbind res_bind place_urns].
    assert (Hin : post_of_full base fp ∈ kept).
    { apply (filter_not_in_keeps _ _ _ _ _ Hk).
      - by apply list_elem_of_fmap_2.
      - unfold dict_get. destruct (post_of_full_lookups base fp) as [Ho _].
        rewrite Ho. cbn -[Str.contains]. by rewrite Hnot. }
    apply filter_not_in_spec in Hk as [Hsub _].
    destruct (place_urn_total (fp_post_urn fp) [] kept (Hurls kept Hsub))
      as (sorted & remaining & E).
    rewrite E. cbn [mbind res_bind].
    destruct (place_urn_cases _ _ _ _ _ E)
      as [(_ & _ & Hnone)|(post & -> & _ & Hpost & _)].
    + rewrite Forall_forall in Hnone. specialize (Hnone _ Hin).
      rewrite post_of_full_found in Hnone. done.
    + by exists post, remaining.
Qed.

Lemma parse_then_assemble_witness :
  ∃ posts,
    parse_list_raw_posts str_of_text [raw_of_full sample_full_post] "https://x"
    = Ok posts ∧
    length posts = length [raw_of_full sample_full_post] ∧
    (∀ l_urns : list string, ∃ sorted remaining,
       get_list_posts_sorted_without_promoted l_urns posts = Ok (sorted, remaining)
       ∧ sorted ⊆ posts) ∧
    (∀ fp, fp ∈ [sample_full_post] → Str.contains "Promoted" (fp_old fp) = false →
       ∃ post remaining,
         get_list_posts_sorted_without_promoted [fp_post_urn fp] posts
         = Ok ([post], remaining) ∧
         url_contains (fp_post_urn fp) post = Ok true).
Proof.
  apply (parse_then_assemble str_of_text [raw_of_full sample_full_post]
           [sample_full_post] "https://x").
  - reflexivity.
  - repeat (constructor;
              [split; [apply complete_raw_of_full | apply sample_full_post_ok]|]).
    constructor.
Defined.

End Composition.

(** * The extractor: locals carried from one record to the next *)

Section ExtractorMore.

Implicit Types (actions pre rest : list pyval) (hit actor : gmap string pyval).

Lemma record_to_activity_locals st d a st' :
  record_to_activity st d = Ok (a, st') → st' = locals_after a.
Proof.
  intros (Ht & _ & _ & _ & _ & Hu & _ & _ & _ & _ & _ & _ & ->)%record_to_activity_spec.
  by rewrite Ht, Hu.
Qed.

(** Each record is processed with the locals left by the activity before
    it. *)
Lemma activities_loop_chain st (acc : list LinkedinActivity) data acts :
  activities_loop st acc data = Ok acts →
  ∃ new, acts = acc ++ new ∧
    ∀ i d, data !! i = Some d →
      ∃ a, new !! i = Some a ∧
        record_to_activity
          (match i with
           | O => st
           | S j => from_option locals_after st (new !! j)
           end) d
        = Ok (a, locals_after a).
Proof.
  revert st acc. induction data as [|d0 data IH]; intros st acc; cbn [activities_loop].
  - intros [= <-]. exists []. by rewrite app_nil_r.
  - destruct (record_to_activity st d0) as [[a0 st']|] eqn:Hd; [|done].
    cbn [mbind res_bind]. intros (new & -> & Hnew)%IH.
    pose proof (record_to_activity_locals _ _ _ _ Hd) as ->.
    exists (a0 :: new). split; [by rewrite <- app_assoc|].
    intros [|i] d Hi.
    + injection Hi as <-. by exists a0.
    + destruct (Hnew i d Hi) as (a & Ha & Hr). exists a. split; [done|].
      destruct i as [|j]; [done|].
      change ((a0 :: new) !! S j) with (new !! j).
      destruct (lookup_lt_is_Some_2 data j) as [dj Hdj].
      { apply lookup_lt_Some in Hi. cbn in Hi. lia. }
      destruct (Hnew j dj Hdj) as (aj & Haj & _).
      by rewrite Haj in Hr |- *.
Qed.

Lemma elements_first data acts d a :
  elements_to_linkedin_activity data = Ok acts →
  data !! 0%nat = Some d → acts !! 0%nat = Some a →
  record_to_activity no_locals d = Ok (a, locals_after a).
Proof.
  intros (new & -> & H)%activities_loop_chain Hd Ha.
  destruct (H _ _ Hd) as (a' & Ha' & Hr). cbn [app] in Ha. congruence.
Qed.


(** ** The actor type *)


Lemma extract_actor_typed st d actor (u : string) :
  d !! "actor" = Some (PDict actor) → actor !! "urn" = Some (PStr u) →
  extract_actor st d
  = (PStr u,
     if Str.contains "company" u then Some "company"
     else if Str.contains "member" u then Some "member"
     else loc_actor_type st).
Proof.
  intros Ha Hu. unfold extract_actor.
  rewrite getitem_dict, Ha. cbn [mbind res_bind]. rewrite getitem_dict, Hu.
  cbn [mbind res_bind py_in]. destruct (Str.contains "company" u); [done|].
  cbn [mbind res_bind py_in]. by destruct (Str.contains "member" u).
Qed.

(** ** The share link *)










(** X25.  The actor identifier of an activity is the [urn] of the record's
    actor, and its type is "company" whenever that identifier contains
    "company", else "member" when it contains "member". *)
Theorem actor_type_from_urn data acts (i : nat) d a actor (u : string) :
  elements_to_linkedin_activity data = Ok acts →
  data !! i = Some d → acts !! i = Some a →
  d !! "actor" = Some (PDict actor) → actor !! "urn" = Some (PStr u) →
  actor_urn a = u ∧
  (Str.contains "company" u = true → actor_type a = "company") ∧
  (Str.contains "company" u = false → Str.contains "member" u = true →
   actor_type a = "member").
Proof.
  intros He Hd Ha Hact Hurn.
  destruct (elements_lookup _ _ _ _ _ He Hd Ha) as (st & st' & Hr).
  apply record_to_activity_spec in Hr as (Ht & Hu & _).
  rewrite (extract_actor_typed _ _ _ _ Hact Hurn) in Ht, Hu.
  cbn [fst snd] in Ht, Hu. split; [congruence|]. split.
  - intros Hc. rewrite Hc in Ht. congruence.
  - intros Hc Hm. rewrite Hc, Hm in Ht. congruence.
Qed.

Lemma actor_type_from_urn_witness :
  actor_urn sample_share_activity = "urn:li:member:1" ∧
  (Str.contains "company" "urn:li:member:1" = true →
   actor_type sample_share_activity = "company") ∧
  (Str.contains "company" "urn:li:member:1" = false →
   Str.contains "member" "urn:li:member:1" = true →
   actor_type sample_share_activity = "member").
Proof.
  apply (actor_type_from_urn [sample_share] [sample_share_activity] 0
           sample_share sample_share_activity
           (list_to_map [("urn", PStr "urn:li:member:1");
                         ("name", obj [("text", PStr "Ann")])])).
  - vm_compute; reflexivity.
  - reflexivity.
  - reflexivity.
  - reflexivity.
  - reflexivity.
Defined.

(** ** The highlighted comment *)

Lemma extract_comment_first d hc others cv (t : string) (z : Z) :
  d !! "highlightedComments" = Some (PList (PDict hc :: others)) →
  hc !! "commentV2" = Some (PDict cv) → cv !! "text" = Some (PStr t) →
  hc !! "createdTime" = Some (PInt z) →
  extract_comment true d
  = PStr (if (min_timestamp <=? z) && (z <=? max_timestamp) then t else "").
Proof.
  intros Hh Hc Ht Hz. unfold extract_comment.
  rewrite (getitem_dict d "highlightedComments"), Hh. cbn [mbind res_bind getitem0].
  rewrite (getitem_dict hc "commentV2"), Hc. cbn [mbind res_bind].
  rewrite (getitem_dict cv "text"), Ht. cbn [mbind res_bind].
  rewrite (getitem_dict hc "createdTime"), Hz.
  cbn [mbind res_bind fromtimestamp_utc].
  by destruct ((min_timestamp <=? z) && (z <=? max_timestamp)).
Qed.

(** X26.  An activity that is not a comment has an empty comment.  One that
    is takes the text of the record's first highlighted comment when the
    creation time of that comment, read as seconds, falls in the years 1 to
    9999, and an empty comment when it does not. *)
Theorem comment_kept_in_range data acts (i : nat) d a :
  elements_to_linkedin_activity data = Ok acts →
  data !! i = Some d → acts !! i = Some a →
  (is_commented a = false → comment a = "") ∧
  (is_commented a = true →
   ∀ hc others cv (t : string) (z : Z),
     d !! "highlightedComments" = Some (PList (PDict hc :: others)) →
     hc !! "commentV2" = Some (PDict cv) → cv !! "text" = Some (PStr t) →
     hc !! "createdTime" = Some (PInt z) →
     (min_timestamp ≤ z ≤ max_timestamp → comment a = t) ∧
     (¬ min_timestamp ≤ z ≤ max_timestamp → comment a = "")).
Proof.
  intros He Hd Ha.
  destruct (elements_lookup _ _ _ _ _ He Hd Ha) as (st & st' & Hr).
  apply record_to_activity_spec in Hr
    as (_ & _ & _ & _ & _ & _ & _ & _ & _ & _ & Hc & _).
  split.
  - intros Hf. rewrite Hf in Hc. cbn [extract_comment] in Hc. congruence.
  - intros Hf hc others cv t z Hh Hcv Ht Hz. rewrite Hf in Hc.
    rewrite (extract_comment_first _ _ _ _ _ _ Hh Hcv Ht Hz) in Hc.
    injection Hc as Hc. split; intros Hrange.
    + replace ((min_timestamp <=? z) && (z <=? max_timestamp)) with true in Hc;
        [done|]. symmetry. apply andb_true_intro. split; apply Z.leb_le; lia.
    + destruct ((min_timestamp <=? z) && (z <=? max_timestamp)) eqn:E; [|done].
      apply andb_prop in E as [E1%Z.leb_le E2%Z.leb_le]. destruct Hrange. lia.
Qed.

Lemma comment_kept_in_range_witness :
  (is_commented sample_comment_millis_activity = false →
   comment sample_comment_millis_activity = "") ∧
  (is_commented sample_comment_millis_activity = true →
   ∀ hc others cv (t : string) (z : Z),
     sample_comment_millis !! "highlightedComments"
     = Some (PList (PDict hc :: others)) →
     hc !! "commentV2" = Some (PDict cv) → cv !! "text" = Some (PStr t) →
     hc !! "createdTime" = Some (PInt z) →
     (min_timestamp ≤ z ≤ max_timestamp →
      comment sample_comment_millis_activity = t) ∧
     (¬ min_timestamp ≤ z ≤ max_timestamp →
      comment sample_comment_millis_activity = "")).
Proof.
  apply (comment_kept_in_range [sample_comment_millis]
           [sample_comment_millis_activity] 0).
  - vm_compute; reflexivity.
  - reflexivity.
  - reflexivity.
Defined.

(** ** Prefixes of the input *)

Lemma activities_loop_app st (acc : list LinkedinActivity) data1 data2 :
  (∀ e, activities_loop st acc data1 = Raise e →
        activities_loop st acc (data1 ++ data2) = Raise e) ∧
  (∀ acts, activities_loop st acc (data1 ++ data2) = Ok acts →
           activities_loop st acc data1
           = Ok (take (length acc + length data1) acts)).
Proof.
  revert st acc. induction data1 as [|d data1 IH]; intros st acc.
  - split; [done|]. cbn [app activities_loop length].
    intros acts (new & -> & _)%activities_loop_spec.
    by rewrite Nat.add_0_r, take_app_length.
  - cbn [app activities_loop length].
    destruct (record_to_activity st d) as [[a st']|]; cbn [mbind res_bind]; [|done].
    destruct (IH st' (acc ++ [a])) as [IH1 IH2]. split; [done|].
    intros acts Hacts. rewrite (IH2 _ Hacts). do 2 f_equal.
    rewrite length_app. cbn [length]. lia.
Qed.

(** X27.  The activities built from the first records do not depend on the
    records after them: a failure on a prefix of the input is the failure of
    the whole call, and when the whole call returns, the prefix alone gives
    the first activities of the result. *)
Theorem extractor_prefix data1 data2 :
  (∀ e, elements_to_linkedin_activity data1 = Raise e →
        elements_to_linkedin_activity (data1 ++ data2) = Raise e) ∧
  (∀ acts, elements_to_linkedin_activity (data1 ++ data2) = Ok acts →
           elements_to_linkedin_activity data1 = Ok (take (length data1) acts)).
Proof. apply (activities_loop_app no_locals [] data1 data2). Qed.

End ExtractorMore.

(** * The decoder: range and order of the instants *)

Section DecoderMore.







End DecoderMore.
